(** * SFTP storage backend (storages/backends/sftpstorage.py)

    A shallow embedding of [SFTPStorage] and [SFTPStorageFile]: the Python
    object and the outside world (local machine, SSH server, remote file
    system) are explicit state, exceptions are a [result], and every remote
    call is recorded in a log so that statements about what the adapter
    sends can be made. *)

From Stdlib Require Import ZArith String Ascii List Bool Lia.
From stdpp Require Import base option list strings gmap.

Open Scope string_scope.

(** ** Python strings and [posixpath] *)

Module Py.

Definition chars (s : string) : list ascii := list_ascii_of_string s.
Definition str (l : list ascii) : string := string_of_list_ascii l.

Definition sep : ascii := "/"%char.
Definition is_sep (c : ascii) : bool := Ascii.eqb c sep.

(** [s.startswith('/')] and [s.endswith('/')] *)
Definition startswith_sep (s : string) : bool :=
  match chars s with
  | c :: _ => is_sep c
  | [] => false
  end.

Definition endswith_sep (s : string) : bool :=
  match rev (chars s) with
  | c :: _ => is_sep c
  | [] => false
  end.

(** [posixpath.join(a, b)]: an absolute [b] discards [a]; otherwise [b] is
    appended, with a separator unless [a] is empty or already ends in one. *)
Definition join (a b : string) : string :=
  if startswith_sep b then b
  else if (String.eqb a "" || endswith_sep a)%bool then a ++ b
  else a ++ "/" ++ b.

(** on a reversed string: what is left of the last separator, inclusive *)
Fixpoint upto_sep (l : list ascii) : list ascii :=
  match l with
  | [] => []
  | c :: r => if is_sep c then l else upto_sep r
  end.

(** on a reversed string: [rstrip('/')] *)
Fixpoint strip_seps (l : list ascii) : list ascii :=
  match l with
  | [] => []
  | c :: r => if is_sep c then strip_seps r else l
  end.

(** [posixpath.dirname(p)]:
      i = p.rfind('/') + 1; head = p[:i]
      if head and head != '/'*len(head): head = head.rstrip('/') *)
Definition dirname (p : string) : string :=
  let rhead := upto_sep (rev (chars p)) in
  match rhead with
  | [] => ""
  | _ :: _ => if forallb is_sep rhead then str (rev rhead)
              else str (rev (strip_seps rhead))
  end.

(** [s.replace(a, b)] for single characters *)
Definition replace_char (a b : ascii) (s : string) : string :=
  str (map (fun c => if Ascii.eqb c a then b else c) (chars s)).

(** [c in s] for a character *)
Definition has_char (c : ascii) (s : string) : bool :=
  existsb (Ascii.eqb c) (chars s).

(** Python truthiness of an optional integer setting: [None] and [0] are false *)
Definition truthy (x : option Z) : bool :=
  match x with
  | Some v => negb (v =? 0)%Z
  | None => false
  end.

(** [a or b] on integers where [a] may be [None] *)
Definition or_else (a : option Z) (b : Z) : Z :=
  match a with
  | Some v => if (v =? 0)%Z then b else v
  | None => b
  end.

End Py.

(** ** Exceptions *)

Inductive exn_class :=
| AuthenticationException   (* paramiko, a subclass of SSHException *)
| SSHException              (* paramiko: negotiation and protocol failures *)
| SocketError               (* socket.error, a subclass of IOError *)
| IOError
| AttributeError
| ValueError
| EOFError
| RecursionError
| KeyboardInterrupt.        (* a BaseException that is not an Exception *)

Record exn := Exn { exn_cls : exn_class; exn_msg : string }.

(** [isinstance(e, paramiko.AuthenticationException)] *)
Definition is_AuthenticationException (e : exn) : bool :=
  match exn_cls e with AuthenticationException => true | _ => false end.

(** [isinstance(e, Exception)] *)
Definition is_Exception (e : exn) : bool :=
  match exn_cls e with KeyboardInterrupt => false | _ => true end.

(** [isinstance(e, IOError)] *)
Definition is_IOError (e : exn) : bool :=
  match exn_cls e with IOError | SocketError => true | _ => false end.

Definition ENOENT (p : string) : exn := Exn IOError ("[Errno 2] No such file: " ++ p).
Definition EFAILURE (p : string) : exn := Exn IOError ("Failure: " ++ p).

Inductive result (A : Type) : Type :=
| Ok (a : A)
| Raise (e : exn).
Arguments Ok {A} a.
Arguments Raise {A} e.

(** ** The remote file system and the requests sent to it *)

Inductive kind :=
| Directory
| Regular (data : list Byte.byte).

Record inode := Inode { i_kind : kind; i_mode : Z; i_uid : Z; i_gid : Z }.

Definition is_dir (n : inode) : bool :=
  match i_kind n with Directory => true | Regular _ => false end.

(** what [stat] and [listdir_attr] return (paramiko.SFTPAttributes) *)
Record SFTPAttributes := Attr {
  filename : string;
  st_mode : option Z;
  st_uid : Z;
  st_gid : Z;
  st_size : Z
}.

Definition S_IFDIR : Z := 16384.   (* 0o040000 *)
Definition S_IFREG : Z := 32768.   (* 0o100000 *)
(** [stat.S_IFMT(mode)] is [mode & 0o170000] *)
Definition S_IFMT (mode : Z) : Z := Z.land mode 61440.

Definition attr_of (p : string) (n : inode) : SFTPAttributes :=
  match i_kind n with
  | Directory => Attr p (Some (Z.lor S_IFDIR (i_mode n))) (i_uid n) (i_gid n) 0
  | Regular d => Attr p (Some (Z.lor S_IFREG (i_mode n))) (i_uid n) (i_gid n)
                      (Z.of_nat (length d))
  end.

Inductive request :=
| ReqStat (p : string)
| ReqMkdir (p : string)
| ReqChmod (p : string) (mode : Z)
| ReqChown (p : string) (u g : Z)
| ReqOpenRead (p : string)
| ReqOpenWrite (p : string)
| ReqWrite (p : string) (data : list Byte.byte)
| ReqRemove (p : string)
| ReqListdir (p : string).

Inductive event :=
| EvLoadHostKeys (file : string)
| EvConnect (host : string) (params : gmap string string)
| EvOpenSftp
| EvRequest (r : request).

(** The account the session runs as on the server, and the modes it gives
    to what it creates. *)
Record account := Account {
  acc_uid : Z; acc_gid : Z; acc_dirmode : Z; acc_filemode : Z
}.

Abbreviation filesystem := (gmap string inode).

(** The server keys its table by the path text it is sent, and the parent
    of a path is its [posixpath.dirname]. A request that cannot be served
    leaves the table as it is and is answered with an [IOError]. *)
Definition serve (a : account) (r : request) (fs : filesystem) : option filesystem :=
  match r with
  | ReqStat p =>
      match fs !! p with Some _ => Some fs | None => None end
  | ReqListdir p =>
      match fs !! p with
      | Some n => if is_dir n then Some fs else None
      | None => None
      end
  | ReqMkdir p =>
      match fs !! p, fs !! Py.dirname p with
      | None, Some d =>
          if is_dir d
          then Some (<[p := Inode Directory (acc_dirmode a) (acc_uid a) (acc_gid a)]> fs)
          else None
      | _, _ => None
      end
  | ReqChmod p m =>
      match fs !! p with
      | Some n => Some (<[p := Inode (i_kind n) m (i_uid n) (i_gid n)]> fs)
      | None => None
      end
  | ReqChown p u g =>
      match fs !! p with
      | Some n => Some (<[p := Inode (i_kind n) (i_mode n) u g]> fs)
      | None => None
      end
  | ReqOpenRead p =>
      match fs !! p with
      | Some n => if is_dir n then None else Some fs
      | None => None
      end
  | ReqOpenWrite p =>
      match fs !! p with
      | Some n =>
          if is_dir n then None
          else Some (<[p := Inode (Regular []) (i_mode n) (i_uid n) (i_gid n)]> fs)
      | None =>
          match fs !! Py.dirname p with
          | Some d =>
              if is_dir d
              then Some (<[p := Inode (Regular []) (acc_filemode a) (acc_uid a) (acc_gid a)]> fs)
              else None
          | None => None
          end
      end
  | ReqWrite p data =>
      match fs !! p with
      | Some n =>
          match i_kind n with
          | Regular old => Some (<[p := Inode (Regular (old ++ data)) (i_mode n) (i_uid n) (i_gid n)]> fs)
          | Directory => None
          end
      | None => None
      end
  | ReqRemove p =>
      match fs !! p with
      | Some n => if is_dir n then None else Some (delete p fs)
      | None => None
      end
  end.

Definition request_path (r : request) : string :=
  match r with
  | ReqStat p | ReqMkdir p | ReqChmod p _ | ReqChown p _ _ | ReqOpenRead p
  | ReqOpenWrite p | ReqWrite p _ | ReqRemove p | ReqListdir p => p
  end.

(** ** The Python objects *)

(** [paramiko.SSHClient]: [transport] is [None] until [connect] gets as far
    as creating one, and holds whether it is active. *)
Record SSHClient := Client {
  host_keys : list string;
  auto_add_policy : bool;
  transport : option bool
}.

(** the channel [open_sftp] returns, numbered in order of opening *)
Record SFTPClient := Channel { channel_id : nat }.

Record SFTPStorage := Storage {
  host : string;
  params : gmap string string;
  interactive : bool;
  file_mode : option Z;
  dir_mode : option Z;
  uid : option Z;
  gid : option Z;
  known_host_file : option string;
  root_path : string;
  base_url : option string;
  _ssh : option SSHClient;     (* [None]: the attribute is not set *)
  _sftp : option SFTPClient
}.

(** How [SSHClient.connect] ends when it does not succeed: the exception
    and whether a transport had been created by then. *)
Record refusal := Refusal { why : exn; transport_created : bool }.

Record world := World {
  (* the local machine *)
  home : string;
  login : string;                       (* getpass.getuser() *)
  tty : list string;                    (* what getpass.getpass() will read *)
  stdout : list string;
  unreadable : string -> option exn;    (* why a local file cannot be loaded *)
  (* the remote host *)
  sshd : string -> gmap string string -> option refusal;
  acct : account;
  fs : filesystem;
  listing : string -> list SFTPAttributes;  (* directory order on the server *)
  channels : nat;
  log : list event
}.

Record state := State { self : SFTPStorage; net : world }.

Definition set_params (v : gmap string string) (s : SFTPStorage) : SFTPStorage :=
  Storage (host s) v (interactive s) (file_mode s) (dir_mode s) (uid s) (gid s)
          (known_host_file s) (root_path s) (base_url s) (_ssh s) (_sftp s).
Definition set_ssh (v : option SSHClient) (s : SFTPStorage) : SFTPStorage :=
  Storage (host s) (params s) (interactive s) (file_mode s) (dir_mode s) (uid s) (gid s)
          (known_host_file s) (root_path s) (base_url s) v (_sftp s).
Definition set_sftp (v : option SFTPClient) (s : SFTPStorage) : SFTPStorage :=
  Storage (host s) (params s) (interactive s) (file_mode s) (dir_mode s) (uid s) (gid s)
          (known_host_file s) (root_path s) (base_url s) (_ssh s) v.

Definition set_tty (v : list string) (w : world) : world :=
  World (home w) (login w) v (stdout w) (unreadable w) (sshd w) (acct w) (fs w)
        (listing w) (channels w) (log w).
Definition set_stdout (v : list string) (w : world) : world :=
  World (home w) (login w) (tty w) v (unreadable w) (sshd w) (acct w) (fs w)
        (listing w) (channels w) (log w).
Definition set_fs (v : filesystem) (w : world) : world :=
  World (home w) (login w) (tty w) (stdout w) (unreadable w) (sshd w) (acct w) v
        (listing w) (channels w) (log w).
Definition set_channels (v : nat) (w : world) : world :=
  World (home w) (login w) (tty w) (stdout w) (unreadable w) (sshd w) (acct w) (fs w)
        (listing w) v (log w).
Definition set_log (v : list event) (w : world) : world :=
  World (home w) (login w) (tty w) (stdout w) (unreadable w) (sshd w) (acct w) (fs w)
        (listing w) (channels w) v.

Definition on_self (f : SFTPStorage -> SFTPStorage) (s : state) : state :=
  State (f (self s)) (net s).
Definition on_net (f : world -> world) (s : state) : state :=
  State (self s) (f (net s)).

(** ** A state and exception monad *)

Definition M (A : Type) : Type := state -> result A * state.

Definition ret {A} (a : A) : M A := fun s => (Ok a, s).
Definition raise {A} (e : exn) : M A := fun s => (Raise e, s).
Definition bind {A B} (m : M A) (k : A -> M B) : M B :=
  fun s => match m s with
           | (Ok a, s') => k a s'
           | (Raise e, s') => (Raise e, s')
           end.
(** [try: m  except <all> as e: h e]; a handler re-raises what it does not catch *)
Definition try_except {A} (m : M A) (h : exn -> M A) : M A :=
  fun s => match m s with
           | (Ok a, s') => (Ok a, s')
           | (Raise e, s') => h e s'
           end.
Definition get : M state := fun s => (Ok s, s).
Definition modify (f : state -> state) : M unit := fun s => (Ok tt, f s).
Definition when (b : bool) (m : M unit) : M unit := if b then m else ret tt.

Notation "x <- m ;; k" := (bind m (fun x => k))
  (at level 90, m at level 60, right associativity).
Notation "m ;;; k" := (bind m (fun _ => k))
  (at level 90, right associativity).

Definition emit (e : event) : M unit :=
  modify (on_net (fun w => set_log (log w ++ [e]) w)).

(** ** What the adapter calls: the local machine and paramiko *)

Definition has_key (k : string) (d : gmap string string) : bool :=
  match d !! k with Some _ => true | None => false end.

Definition hasattr_sftp (o : SFTPStorage) : bool :=
  match _sftp o with Some _ => true | None => false end.

Definition update_client (f : SSHClient -> SSHClient) : M unit :=
  modify (on_self (fun o => set_ssh (f <$> _ssh o) o)).

Definition set_param (k v : string) : M unit :=
  modify (on_self (fun o => set_params (<[k := v]> (params o)) o)).

(** [paramiko.SSHClient()] *)
Definition new_client : SSHClient := Client [] false None.

(** [os.path.expanduser] of a path that starts with [~] *)
Definition expanduser (homedir p : string) : string :=
  match p with
  | String "~"%char rest => homedir ++ rest
  | _ => p
  end.

(** [client.load_host_keys(f)]: raises when the file cannot be read *)
Definition load_host_keys (f : string) : M unit :=
  emit (EvLoadHostKeys f) ;;;
  s <- get ;;
  match unreadable (net s) f with
  | Some e => raise e
  | None => update_client (fun c => Client (host_keys c ++ [f]) (auto_add_policy c) (transport c))
  end.

(** [client.set_missing_host_key_policy(paramiko.AutoAddPolicy())] *)
Definition set_missing_host_key_policy : M unit :=
  update_client (fun c => Client (host_keys c) true (transport c)).

(** [client.connect(host, **params)] *)
Definition ssh_connect (h : string) (ps : gmap string string) : M unit :=
  emit (EvConnect h ps) ;;;
  s <- get ;;
  match sshd (net s) h ps with
  | None => update_client (fun c => Client (host_keys c) (auto_add_policy c) (Some true))
  | Some r =>
      update_client (fun c => Client (host_keys c) (auto_add_policy c)
                                     (if transport_created r then Some false else None)) ;;;
      raise (why r)
  end.

(** [client.open_sftp()], that is [client._transport.open_sftp_client()] *)
Definition open_sftp : M SFTPClient :=
  s <- get ;;
  match _ssh (self s) with
  | Some c =>
      match transport c with
      | Some true =>
          emit EvOpenSftp ;;;
          modify (on_net (set_channels (S (channels (net s))))) ;;;
          ret (Channel (channels (net s)))
      | Some false => raise (Exn SSHException "SSH session not active")
      | None => raise (Exn AttributeError "'NoneType' object has no attribute 'open_sftp_client'")
      end
  | None => raise (Exn AttributeError "'SFTPStorage' object has no attribute '_ssh'")
  end.

Definition print (line : string) : M unit :=
  modify (on_net (fun w => set_stdout (stdout w ++ [line]) w)).

Definition getuser : M string := s <- get ;; ret (login (net s)).

Definition getpass : M string :=
  s <- get ;;
  match tty (net s) with
  | line :: rest => modify (on_net (set_tty rest)) ;;; ret line
  | [] => raise (Exn EOFError "EOF when reading a line")
  end.

(** a request over the channel [c] *)
Definition call (c : SFTPClient) (r : request) : M unit :=
  emit (EvRequest r) ;;;
  s <- get ;;
  match serve (acct (net s)) r (fs (net s)) with
  | Some fs' => modify (on_net (set_fs fs'))
  | None =>
      match fs (net s) !! request_path r with
      | None => raise (ENOENT (request_path r))
      | Some _ => raise (EFAILURE (request_path r))
      end
  end.

Definition stat (c : SFTPClient) (p : string) : M SFTPAttributes :=
  call c (ReqStat p) ;;;
  s <- get ;;
  match fs (net s) !! p with
  | Some n => ret (attr_of p n)
  | None => raise (ENOENT p)
  end.

Definition listdir_attr (c : SFTPClient) (p : string) : M (list SFTPAttributes) :=
  call c (ReqListdir p) ;;;
  s <- get ;;
  ret (listing (net s) p).

(** ** What is handed to [_save]: a Django [File], or raw bytes *)

Record File := DjangoFile { f_data : list Byte.byte; f_pos : nat; f_closed : bool }.

Inductive pyobj :=
| PyBytes (b : list Byte.byte)
| PyFile (f : File).

(** [content.open()] *)
Definition content_open (content : pyobj) : M pyobj :=
  match content with
  | PyBytes _ => raise (Exn AttributeError "'bytes' object has no attribute 'open'")
  | PyFile f =>
      if f_closed f then raise (Exn ValueError "The file cannot be reopened.")
      else ret (PyFile (DjangoFile (f_data f) 0 false))
  end.

(** [content.file.read()] *)
Definition content_file_read (content : pyobj) : M (list Byte.byte) :=
  match content with
  | PyBytes _ => raise (Exn AttributeError "'bytes' object has no attribute 'file'")
  | PyFile f => ret (drop (f_pos f) (f_data f))
  end.

(** ** [urlparse.urljoin]

    The adapter takes [urljoin] from the standard library
    (urllib.parse in CPython 3.6). [url] below is stated over any join
    function; this model of it serves to run [url] on concrete names. *)

Module Urlparse.

Definition is_c (c x : ascii) : bool := Ascii.eqb x c.

(** [l.split(c, 1)] when [c] occurs in [l] *)
Fixpoint cut (c : ascii) (l : list ascii) : option (list ascii * list ascii) :=
  match l with
  | [] => None
  | x :: r =>
      if is_c c x then Some ([], r)
      else match cut c r with
           | Some (a, b) => Some (x :: a, b)
           | None => None
           end
  end.

(** [l.split(c)] *)
Fixpoint split (c : ascii) (l : list ascii) : list (list ascii) :=
  match l with
  | [] => [[]]
  | x :: r =>
      if is_c c x then [] :: split c r
      else match split c r with
           | seg :: segs => (x :: seg) :: segs
           | [] => [[x]]
           end
  end.

(** [c.join(segs)] *)
Fixpoint unsplit (c : ascii) (segs : list (list ascii)) : list ascii :=
  match segs with
  | [] => []
  | [seg] => seg
  | seg :: rest => (seg ++ c :: unsplit c rest)%list
  end.

Definition lower (c : ascii) : ascii :=
  let n := nat_of_ascii c in
  if ((65 <=? n) && (n <=? 90))%nat then ascii_of_nat (n + 32) else c.

Definition is_digit (c : ascii) : bool :=
  let n := nat_of_ascii c in ((48 <=? n) && (n <=? 57))%nat.

Definition is_scheme_char (c : ascii) : bool :=
  let n := nat_of_ascii c in
  (((65 <=? n) && (n <=? 90)) || ((97 <=? n) && (n <=? 122)) || is_digit c
   || is_c "+" c || is_c "-" c || is_c "." c)%nat%bool.

Definition uses_relative : list string :=
  [""; "ftp"; "http"; "gopher"; "nntp"; "imap"; "wais"; "file"; "https";
   "shttp"; "mms"; "prospero"; "rtsp"; "rtspu"; "sftp"; "svn"; "svn+ssh";
   "ws"; "wss"].
Definition uses_netloc : list string :=
  [""; "ftp"; "http"; "gopher"; "nntp"; "telnet"; "imap"; "wais"; "file";
   "mms"; "https"; "shttp"; "snews"; "prospero"; "rtsp"; "rtspu"; "rsync";
   "svn"; "svn+ssh"; "sftp"; "nfs"; "git"; "git+ssh"; "ws"; "wss"].
Definition uses_params : list string :=
  [""; "ftp"; "hdl"; "prospero"; "http"; "imap"; "https"; "shttp"; "rtsp";
   "rtspu"; "sip"; "sips"; "mms"; "sftp"; "tel"].

Definition mem (s : list ascii) (l : list string) : bool :=
  existsb (String.eqb (Py.str s)) l.

Definition nonempty {A} (l : list A) : bool :=
  match l with [] => false | _ => true end.

(** the scheme of [urlsplit(url, default)], and what follows it *)
Definition split_scheme (url default : list ascii) : list ascii * list ascii :=
  match cut ":" url with
  | Some (pre, rest) =>
      if (nonempty pre
          && (String.eqb (Py.str pre) "http"
              || (forallb is_scheme_char pre
                  && (negb (nonempty rest) || negb (forallb is_digit rest)))))%bool
      then (map lower pre, rest)
      else (default, url)
  | None => (default, url)
  end.

(** [_splitnetloc(url, 2)] on what follows the two slashes *)
Fixpoint split_netloc (l : list ascii) : list ascii * list ascii :=
  match l with
  | [] => ([], [])
  | x :: r =>
      if (is_c "/" x || is_c "?" x || is_c "#" x)%bool then ([], l)
      else (x :: fst (split_netloc r), snd (split_netloc r))
  end.

Record parts := Parts {
  p_scheme : list ascii; p_netloc : list ascii; p_path : list ascii;
  p_params : list ascii; p_query : list ascii; p_fragment : list ascii
}.

(** [_splitparams]: the parameters follow the first [;] of the last segment *)
Definition split_params (path : list ascii) : list ascii * list ascii :=
  let rlast := Py.upto_sep (rev path) in          (* path[:rfind('/')+1], reversed *)
  let dir := rev rlast in
  let last := drop (length dir) path in
  match cut ";" last with
  | Some (a, b) => ((dir ++ a)%list, b)
  | None => (path, [])
  end.

(** [urlparse(url, default)] *)
Definition urlparse (url default : list ascii) : result parts :=
  let '(scheme, url) := split_scheme url default in
  let '(netloc, url) :=
    match url with
    | "/"%char :: "/"%char :: r => split_netloc r
    | _ => ([], url)
    end in
  if (xorb (existsb (is_c "[") netloc) (existsb (is_c "]") netloc))
  then Raise (Exn ValueError "Invalid IPv6 URL")
  else
    let '(url, fragment) :=
      match cut "#" url with Some (a, b) => (a, b) | None => (url, []) end in
    let '(url, query) :=
      match cut "?" url with Some (a, b) => (a, b) | None => (url, []) end in
    let '(url, prms) :=
      if (mem scheme uses_params && existsb (is_c ";") url)%bool
      then split_params url else (url, []) in
    Ok (Parts scheme netloc url prms query fragment).

(** [urlunparse] *)
Definition urlunparse (p : parts) : list ascii :=
  let url := if nonempty (p_params p)
             then (p_path p ++ ";"%char :: p_params p)%list else p_path p in
  let url :=
    if (nonempty (p_netloc p)
        || (nonempty (p_scheme p) && mem (p_scheme p) uses_netloc
            && negb (match url with "/"%char :: "/"%char :: _ => true | _ => false end)))%bool
    then
      let url := match url with
                 | [] => []
                 | "/"%char :: _ => url
                 | _ => "/"%char :: url
                 end in
      ("/"%char :: "/"%char :: p_netloc p ++ url)%list
    else url in
  let url := if nonempty (p_scheme p) then (p_scheme p ++ ":"%char :: url)%list else url in
  let url := if nonempty (p_query p) then (url ++ "?"%char :: p_query p)%list else url in
  if nonempty (p_fragment p) then (url ++ "#"%char :: p_fragment p)%list else url.

(** [segments[1:-1] = filter(None, segments[1:-1])] *)
Definition squeeze (segments : list (list ascii)) : list (list ascii) :=
  match segments with
  | first :: (_ :: _) as rest =>
      (first :: filter (fun seg => nonempty seg = true) (removelast rest)
         ++ [List.last rest []])%list
  | _ => segments
  end.

(** the loop over the segments: [..] pops, [.] is skipped *)
Definition resolve_step (resolved : list (list ascii)) (seg : list ascii)
  : list (list ascii) :=
  if String.eqb (Py.str seg) ".." then removelast resolved
  else if String.eqb (Py.str seg) "." then resolved
  else (resolved ++ [seg])%list.

Definition urljoin (base url : string) : result string :=
  if String.eqb base "" then Ok url
  else if String.eqb url "" then Ok base
  else
    match urlparse (Py.chars base) [] with
    | Raise e => Raise e
    | Ok b =>
    match urlparse (Py.chars url) (p_scheme b) with
    | Raise e => Raise e
    | Ok u =>
        if (negb (String.eqb (Py.str (p_scheme u)) (Py.str (p_scheme b)))
            || negb (mem (p_scheme u) uses_relative))%bool
        then Ok url
        else if (mem (p_scheme u) uses_netloc && nonempty (p_netloc u))%bool
        then Ok (Py.str (urlunparse u))
        else
          let netloc := if mem (p_scheme u) uses_netloc then p_netloc b else p_netloc u in
          if (negb (nonempty (p_path u)) && negb (nonempty (p_params u)))%bool
          then
            let query := if nonempty (p_query u) then p_query u else p_query b in
            Ok (Py.str (urlunparse (Parts (p_scheme u) netloc (p_path b) (p_params b)
                                          query (p_fragment u))))
          else
            let base_parts := split "/" (p_path b) in
            let base_parts :=
              if nonempty (List.last base_parts []) then removelast base_parts
              else base_parts in
            let segments :=
              match p_path u with
              | "/"%char :: _ => split "/" (p_path u)
              | _ => squeeze (base_parts ++ split "/" (p_path u))
              end in
            let resolved := fold_left resolve_step segments [] in
            let last := Py.str (List.last segments []) in
            let resolved :=
              if (String.eqb last "." || String.eqb last "..")%bool
              then (resolved ++ [[]])%list else resolved in
            let path := match unsplit "/" resolved with
                        | [] => ["/"%char]
                        | p => p
                        end in
            Ok (Py.str (urlunparse (Parts (p_scheme u) netloc path (p_params u)
                                          (p_query u) (p_fragment u))))
    end
    end.

End Urlparse.

(** ** SFTPStorage *)

Section Adapter.

(** how deep Python lets a function call itself *)
Variable recursion_limit : nat.

(** [urlparse.urljoin], from the standard library *)
Variable urljoin : string -> string -> result string.

Definition RecursionLimit : exn :=
  Exn RecursionError "maximum recursion depth exceeded".

Fixpoint _connect_rec (depth : nat) : M unit :=
  match depth with
  | O => raise RecursionLimit
  | S d =>
      modify (on_self (set_ssh (Some new_client))) ;;;
      s <- get ;;
      match known_host_file (self s) with
      | Some f => load_host_keys f
      | None => load_host_keys (expanduser (home (net s)) "~/.ssh/known_hosts")
      end ;;;
      set_missing_host_key_policy ;;;
      try_except
        (s <- get ;; ssh_connect (host (self s)) (params (self s)))
        (fun e =>
           if is_AuthenticationException e then
             s <- get ;;
             if (interactive (self s) && negb (has_key "password" (params (self s))))%bool
             then
               when (negb (has_key "username" (params (self s))))
                    (u <- getuser ;; set_param "username" u) ;;;
               p <- getpass ;;
               set_param "password" p ;;;
               _connect_rec d
             else raise (Exn AuthenticationException (exn_msg e))
           else if is_Exception e then print (exn_msg e)
           else raise e) ;;;
      s <- get ;;
      when (negb (hasattr_sftp (self s)))
           (c <- open_sftp ;; modify (on_self (set_sftp (Some c))))
  end.

Definition _connect : M unit := _connect_rec recursion_limit.

Definition sftp : M SFTPClient :=
  s <- get ;;
  when (negb (hasattr_sftp (self s))) _connect ;;;
  s <- get ;;
  match _sftp (self s) with
  | Some c => ret c
  | None => raise (Exn AttributeError "'SFTPStorage' object has no attribute '_sftp'")
  end.

Definition _join (a b : string) : string := Py.join a b.

Definition _remote_path (o : SFTPStorage) (name : string) : string :=
  _join (root_path o) name.

Definition _read (name : string) : M string :=
  s <- get ;;
  let remote_path := _remote_path (self s) name in
  c <- sftp ;;
  call c (ReqOpenRead remote_path) ;;;
  ret remote_path.

Definition _chown (path : string) (uid gid : option Z) : M unit :=
  match uid, gid with
  | Some u, Some g => c <- sftp ;; call c (ReqChown path u g)
  | _, _ =>
      c <- sftp ;;
      attr <- stat c path ;;
      let u := Py.or_else uid (st_uid attr) in
      let g := Py.or_else gid (st_gid attr) in
      c <- sftp ;;
      call c (ReqChown path u g)
  end.

Definition exists_ (name : string) : M bool :=
  s <- get ;;
  let remote_path := _remote_path (self s) name in
  try_except
    (c <- sftp ;; _ <- stat c remote_path ;; ret true)
    (fun e => if is_IOError e then ret false else raise e).

Fixpoint _mkdir_rec (depth : nat) (path : string) : M unit :=
  match depth with
  | O => raise RecursionLimit
  | S d =>
      let parent := Py.dirname path in
      found <- exists_ parent ;;
      when (negb found) (_mkdir_rec d parent) ;;;
      c <- sftp ;;
      call c (ReqMkdir path) ;;;
      s <- get ;;
      match dir_mode (self s) with
      | Some m => c <- sftp ;; call c (ReqChmod path m)
      | None => ret tt
      end ;;;
      s <- get ;;
      when (Py.truthy (uid (self s)) || Py.truthy (gid (self s)))%bool
           (_chown path (uid (self s)) (gid (self s)))
  end.

Definition _mkdir (path : string) : M unit := _mkdir_rec recursion_limit path.

Definition _save (name : string) (content : pyobj) : M string :=
  content <- content_open content ;;
  s <- get ;;
  let path := _remote_path (self s) name in
  let dirname := Py.dirname path in
  found <- exists_ dirname ;;
  when (negb found) (_mkdir dirname) ;;;
  c <- sftp ;;
  call c (ReqOpenWrite path) ;;;
  data <- content_file_read content ;;
  call c (ReqWrite path data) ;;;
  s <- get ;;
  match file_mode (self s) with
  | Some m => c <- sftp ;; call c (ReqChmod path m)
  | None => ret tt
  end ;;;
  s <- get ;;
  when (Py.truthy (uid (self s)) || Py.truthy (gid (self s)))%bool
       (_chown path (uid (self s)) (gid (self s))) ;;;
  ret name.

Definition delete (name : string) : M unit :=
  s <- get ;;
  let remote_path := _remote_path (self s) name in
  c <- sftp ;;
  call c (ReqRemove remote_path).

Definition _isdir_attr (item : SFTPAttributes) : bool :=
  match st_mode item with
  | Some mode => (S_IFMT mode =? S_IFDIR)%Z
  | None => false
  end.

(** the loop of [listdir]: one step per item of the remote listing *)
Definition listdir_step (acc : list string * list string) (item : SFTPAttributes)
  : list string * list string :=
  if _isdir_attr item then ((fst acc ++ [filename item])%list, snd acc)
  else (fst acc, (snd acc ++ [filename item])%list).

Definition listdir (path : string) : M (list string * list string) :=
  s <- get ;;
  let remote_path := _remote_path (self s) path in
  c <- sftp ;;
  items <- listdir_attr c remote_path ;;
  ret (fold_left listdir_step items ([], [])).

Definition size (name : string) : M Z :=
  s <- get ;;
  let remote_path := _remote_path (self s) name in
  c <- sftp ;;
  attr <- stat c remote_path ;;
  ret (st_size attr).

Definition url (name : string) : M string :=
  s <- get ;;
  match base_url (self s) with
  | None => raise (Exn ValueError "This file is not accessible via a URL.")
  | Some base =>
      match urljoin base name with
      | Ok u => ret (Py.replace_char "\"%char "/"%char u)
      | Raise e => raise e
      end
  end.

(** ** SFTPStorageFile *)

Inductive stream :=
| BytesIO (buf : list Byte.byte) (pos : nat)
| SFTPFile (path : string) (pos : nat).

Record SFTPStorageFile := Handle {
  _name : string;
  _mode : string;
  _is_dirty : bool;
  file : stream;
  file_closed : bool;
  _is_read : bool;
  _size : option Z
}.

(** [SFTPStorage._open], that is [SFTPStorageFile.__init__] *)
Definition _open (name mode : string) : SFTPStorageFile :=
  Handle name mode false (BytesIO [] 0) false false None.

(** [h.size] *)
Definition handle_size (h : SFTPStorageFile) : M (Z * SFTPStorageFile) :=
  match _size h with
  | Some n => ret (n, h)
  | None =>
      n <- size (_name h) ;;
      ret (n, Handle (_name h) (_mode h) (_is_dirty h) (file h) (file_closed h)
                     (_is_read h) (Some n))
  end.

(** [stream.read(num_bytes)] *)
Definition stream_read (f : stream) (num_bytes : option nat)
  : M (list Byte.byte * stream) :=
  let cut (l : list Byte.byte) :=
    match num_bytes with Some n => take n l | None => l end in
  match f with
  | BytesIO buf pos =>
      let out := cut (drop pos buf) in
      ret (out, BytesIO buf (pos + length out))
  | SFTPFile path pos =>
      s <- get ;;
      match fs (net s) !! path with
      | Some (Inode (Regular d) _ _ _) =>
          let out := cut (drop pos d) in
          ret (out, SFTPFile path (pos + length out))
      | _ => raise (EFAILURE path)
      end
  end.

Definition read (h : SFTPStorageFile) (num_bytes : option nat)
  : M (list Byte.byte * SFTPStorageFile) :=
  h <- (if _is_read h then ret h
        else
          p <- _read (_name h) ;;
          ret (Handle (_name h) (_mode h) (_is_dirty h) (SFTPFile p 0) false
                      true (_size h))) ;;
  if file_closed h then raise (Exn ValueError "I/O operation on closed file.")
  else
    r <- stream_read (file h) num_bytes ;;
    ret (fst r, Handle (_name h) (_mode h) (_is_dirty h) (snd r) (file_closed h)
                       (_is_read h) (_size h)).

Definition write (h : SFTPStorageFile) (content : list Byte.byte)
  : M (unit * SFTPStorageFile) :=
  if negb (Py.has_char "w"%char (_mode h))
  then raise (Exn AttributeError "File was opened for read-only access.")
  else ret (tt, Handle (_name h) (_mode h) true (BytesIO content 0) false true (_size h)).

(** [stream.getvalue()] *)
Definition getvalue (f : stream) (closed : bool) : M (list Byte.byte) :=
  match f with
  | BytesIO buf _ =>
      if closed then raise (Exn ValueError "I/O operation on closed file.")
      else ret buf
  | SFTPFile _ _ => raise (Exn AttributeError "'SFTPFile' object has no attribute 'getvalue'")
  end.

Definition close (h : SFTPStorageFile) : M (unit * SFTPStorageFile) :=
  when (_is_dirty h)
       (v <- getvalue (file h) (file_closed h) ;;
        _ <- _save (_name h) (PyBytes v) ;;
        ret tt) ;;;
  ret (tt, Handle (_name h) (_mode h) (_is_dirty h) (file h) true (_is_read h) (_size h)).

End Adapter.


(** * Properties *)

Open Scope list_scope.

(** ** [posixpath] on examples *)

Example join_root : Py.join "/srv/media/" "a/b.txt" = "/srv/media/a/b.txt".
Proof. reflexivity. Qed.
Example join_nosep : Py.join "/srv/media" "a" = "/srv/media/a".
Proof. reflexivity. Qed.
Example join_abs : Py.join "/srv/media/" "/etc/x" = "/etc/x".
Proof. reflexivity. Qed.
Example dirname_file : Py.dirname "/srv/media/a/b.txt" = "/srv/media/a".
Proof. reflexivity. Qed.
Example dirname_top : Py.dirname "/srv" = "/".
Proof. reflexivity. Qed.
Example dirname_root : Py.dirname "/" = "/".
Proof. reflexivity. Qed.
Example dirname_rel : Py.dirname "media" = "".
Proof. reflexivity. Qed.
Example dirname_slashes : Py.dirname "/a//b" = "/a".
Proof. reflexivity. Qed.

(** ** Reasoning about runs *)

Definition logged (e : event) (s : state) : state :=
  on_net (fun w => set_log (log w ++ [e]) w) s.

Lemma logged_fs e s : fs (net (logged e s)) = fs (net s).
Proof. reflexivity. Qed.

Lemma logged_self e s : self (logged e s) = self s.
Proof. reflexivity. Qed.

Lemma logged_log e s : log (net (logged e s)) = log (net s) ++ [e].
Proof. reflexivity. Qed.

Lemma bind_ok {A B} (m : M A) (k : A -> M B) s a s' :
  m s = (Ok a, s') -> bind m k s = k a s'.
Proof. unfold bind. intros ->. reflexivity. Qed.

Lemma bind_raise {A B} (m : M A) (k : A -> M B) s e s' :
  m s = (Raise e, s') -> bind m k s = (Raise e, s').
Proof. unfold bind. intros ->. reflexivity. Qed.

Lemma sftp_cached limit s c :
  _sftp (self s) = Some c -> sftp limit s = (Ok c, s).
Proof.
  intros H. unfold sftp, bind, get, when, hasattr_sftp. rewrite H. simpl.
  rewrite H. reflexivity.
Qed.

Lemma stat_found c p s n :
  fs (net s) !! p = Some n ->
  stat c p s = (Ok (attr_of p n), logged (EvRequest (ReqStat p)) s).
Proof.
  intros H. unfold stat, call, bind, emit, modify, get. simpl. rewrite H. simpl.
  rewrite H. destruct s as [o w]; destruct w; reflexivity.
Qed.

Lemma stat_missing c p s :
  fs (net s) !! p = None ->
  stat c p s = (Raise (ENOENT p), logged (EvRequest (ReqStat p)) s).
Proof.
  intros H. unfold stat, call, bind, emit, modify, get. simpl. rewrite H. reflexivity.
Qed.

(** ** [url] *)

Lemma replace_char_removes (a b : ascii) (l : list ascii) :
  a <> b ->
  existsb (Ascii.eqb a) (map (fun c => if Ascii.eqb c a then b else c) l) = false.
Proof.
  intros Hab. induction l as [|c l IH]; simpl; [reflexivity|].
  rewrite IH, orb_false_r.
  destruct (Ascii.eqb c a) eqn:E.
  - apply Ascii.eqb_neq. exact Hab.
  - rewrite Ascii.eqb_sym. exact E.
Qed.

Lemma has_char_replace_char (a b : ascii) (u : string) :
  a <> b -> Py.has_char a (Py.replace_char a b u) = false.
Proof.
  intros Hab. unfold Py.has_char, Py.replace_char, Py.chars, Py.str.
  rewrite list_ascii_of_string_of_list_ascii. apply replace_char_removes, Hab.
Qed.

(** C9. [url(name)] raises when no base URL is configured; otherwise it
    returns the join of the base URL and the name, with every backslash
    turned into a forward slash, so that no backslash is left; and
    [url("a/b.txt")] under the base [https://static.example.com/media/] is
    [https://static.example.com/media/a/b.txt]. *)
Theorem url_joins_base_and_name
    (join : string -> string -> result string) (s : state) (name : string) :
  (base_url (self s) = None ->
     exists e, url join name s = (Raise e, s) /\ exn_cls e = ValueError) /\
  (forall base u,
     base_url (self s) = Some base -> join base name = Ok u ->
     url join name s = (Ok (Py.replace_char "\"%char "/"%char u), s) /\
     Py.has_char "\"%char (Py.replace_char "\"%char "/"%char u) = false) /\
  (base_url (self s) = Some "https://static.example.com/media/"%string ->
     url Urlparse.urljoin "a/b.txt" s
     = (Ok "https://static.example.com/media/a/b.txt"%string, s)).
Proof.
  repeat split.
  - intros H. eexists. unfold url, bind, get. rewrite H. split; reflexivity.
  - unfold url, bind, get. rewrite H, H0. reflexivity.
  - apply has_char_replace_char. discriminate.
  - intros H. unfold url, bind, get. rewrite H. reflexivity.
Qed.

(** ** [listdir] *)

Definition is_dir_item (item : SFTPAttributes) : Prop := _isdir_attr item = true.

#[local] Instance is_dir_item_dec item : Decision (is_dir_item item).
Proof. unfold is_dir_item. apply _. Defined.

Lemma listdir_loop (items : list SFTPAttributes) :
  forall acc,
    fold_left listdir_step items acc
    = (acc.1 ++ (filename <$> filter is_dir_item items),
       acc.2 ++ (filename <$> filter (fun i => ~ is_dir_item i) items)).
Proof.
  induction items as [|item items IH]; intros [dirs files]; simpl.
  - rewrite !app_nil_r. reflexivity.
  - rewrite IH. rewrite !filter_cons. unfold listdir_step. simpl.
    destruct (_isdir_attr item) eqn:E.
    + rewrite decide_True by exact E.
      rewrite decide_False by (intros Hn; apply Hn; exact E).
      simpl. rewrite <- app_assoc. reflexivity.
    + rewrite decide_False by (unfold is_dir_item; congruence).
      rewrite decide_True by (unfold is_dir_item; congruence).
      simpl. rewrite <- app_assoc. reflexivity.
Qed.

Lemma listdir_attr_found c p s d :
  fs (net s) !! p = Some d -> is_dir d = true ->
  listdir_attr c p s = (Ok (listing (net s) p), logged (EvRequest (ReqListdir p)) s).
Proof.
  intros H Hd. unfold listdir_attr, call, bind, emit, modify, get. simpl.
  rewrite H, Hd. simpl. destruct s as [o w]; destruct w; reflexivity.
Qed.

(** C7. [listdir] returns the names of the remote listing in two sequences:
    the entries whose mode bits mark a directory, and the others. Every
    entry lands in exactly one of them, each keeps the order of the remote
    listing, and (the names of one directory being distinct) no name is in
    both. *)
Theorem listdir_splits_listing
    (limit : nat) (s : state) (path : string) (c : SFTPClient) (d : inode) :
  _sftp (self s) = Some c ->
  fs (net s) !! _remote_path (self s) path = Some d ->
  is_dir d = true ->
  let items := listing (net s) (_remote_path (self s) path) in
  exists dirs files s',
    listdir limit path s = (Ok (dirs, files), s') /\
    (forall item, is_dir_item item <->
       exists mode, st_mode item = Some mode /\ Z.land mode 61440 = 16384%Z) /\
    dirs = filename <$> filter is_dir_item items /\
    files = filename <$> filter (fun i => ~ is_dir_item i) items /\
    sublist dirs (filename <$> items) /\
    sublist files (filename <$> items) /\
    dirs ++ files ≡ₚ filename <$> items /\
    (NoDup (filename <$> items) -> forall x, x ∈ dirs -> x ∉ files).
Proof.
  intros Hc Hfs Hd items.
  exists (filename <$> filter is_dir_item items),
         (filename <$> filter (fun i => ~ is_dir_item i) items).
  eexists. split.
  { unfold listdir. rewrite (bind_ok _ _ s s s) by reflexivity.
    rewrite (bind_ok _ _ _ _ _ (sftp_cached limit s c Hc)).
    rewrite (bind_ok _ _ _ _ _ (listdir_attr_found c _ s d Hfs Hd)).
    unfold ret. rewrite listdir_loop. reflexivity. }
  assert (Hperm : (filename <$> filter is_dir_item items)
                  ++ (filename <$> filter (fun i => ~ is_dir_item i) items)
                  ≡ₚ filename <$> items).
  { rewrite <- fmap_app. apply fmap_Permutation, filter_app_complement. }
  split.
  { intros item. unfold is_dir_item, _isdir_attr, S_IFMT, S_IFDIR.
    destruct (st_mode item) as [mode|]; split.
    - intros H. exists mode. split; [reflexivity|]. apply Z.eqb_eq, H.
    - intros (m & Hm & H). inversion Hm; subst. apply Z.eqb_eq, H.
    - discriminate.
    - intros (m & Hm & _). discriminate. }
  repeat split.
  - apply fmap_sublist, sublist_filter.
  - apply fmap_sublist, sublist_filter.
  - exact Hperm.
  - intros Hnd x Hx Hy. rewrite <- Hperm in Hnd.
    apply NoDup_app in Hnd as (_ & Hdisj & _). exact (Hdisj x Hx Hy).
Qed.

(** ** [exists] *)

Lemma try_except_ok {A} (m : M A) h s a s' :
  m s = (Ok a, s') -> try_except m h s = (Ok a, s').
Proof. unfold try_except. intros ->. reflexivity. Qed.

Lemma try_except_raise {A} (m : M A) h s e s' :
  m s = (Raise e, s') -> try_except m h s = h e s'.
Proof. unfold try_except. intros ->. reflexivity. Qed.

(** C5. With the session at hand, [exists(name)] is [True] when the remote
    [stat] of the resolved path succeeds and [False] when it fails with an
    [IOError] such as not-found; and whatever the state, [exists] never
    raises an [IOError]. *)
Theorem exists_returns_boolean
    (limit : nat) (s : state) (name : string) (c : SFTPClient) :
  _sftp (self s) = Some c ->
  let remote_path := _remote_path (self s) name in
  (forall a s', stat c remote_path s = (Ok a, s') ->
     exists_ limit name s = (Ok true, s')) /\
  (forall e s', stat c remote_path s = (Raise e, s') -> is_IOError e = true ->
     exists_ limit name s = (Ok false, s')) /\
  (fs (net s) !! remote_path = None ->
     stat c remote_path s
     = (Raise (ENOENT remote_path), logged (EvRequest (ReqStat remote_path)) s) /\
     exists_ limit name s = (Ok false, logged (EvRequest (ReqStat remote_path)) s)) /\
  (forall t e t', exists_ limit name t = (Raise e, t') -> is_IOError e = false).
Proof.
  intros Hc remote_path.
  assert (Hrun : forall r s', stat c remote_path s = (r, s') ->
            exists_ limit name s
            = match r with
              | Ok _ => (Ok true, s')
              | Raise e => if is_IOError e then (Ok false, s') else (Raise e, s')
              end).
  { intros r s' Hst. unfold exists_.
    rewrite (bind_ok _ _ s s s) by reflexivity. fold remote_path.
    unfold try_except.
    rewrite (bind_ok _ _ _ _ _ (sftp_cached limit s c Hc)).
    unfold bind at 1. rewrite Hst. destruct r; [reflexivity|].
    destruct (is_IOError e); reflexivity. }
  repeat split.
  - intros a s' H. apply (Hrun _ _ H).
  - intros e s' H He. rewrite (Hrun _ _ H), He. reflexivity.
  - apply stat_missing, H.
  - rewrite (Hrun _ _ (stat_missing c _ s H)). reflexivity.
  - intros t e t'. unfold exists_, bind at 1, get, try_except.
    destruct (bind (sftp limit) _ t) as [[b|e'] t''] eqn:E.
    + discriminate.
    + destruct (is_IOError e') eqn:Hio.
      * discriminate.
      * unfold raise. intros H. inversion H; subst. exact Hio.
Qed.

Lemma sftp_connect_raises limit s e s' :
  _sftp (self s) = None ->
  _connect limit s = (Raise e, s') ->
  sftp limit s = (Raise e, s').
Proof.
  intros Hn Hc. unfold sftp. rewrite (bind_ok _ _ s s s) by reflexivity.
  unfold hasattr_sftp. rewrite Hn. simpl. apply bind_raise. exact Hc.
Qed.

(** ** Connection establishment *)

(** the known-hosts file [_connect] loads *)
Definition hosts_file (s : state) : string :=
  match known_host_file (self s) with
  | Some f => f
  | None => expanduser (home (net s)) "~/.ssh/known_hosts"
  end.

Ltac run :=
  unfold bind, try_except, get, modify, emit, when, ret, raise; simpl.

Ltac flat :=
  unfold logged, on_self, on_net, set_ssh, set_sftp, set_params, set_log,
    set_fs, set_stdout, set_tty, set_channels; simpl.

Lemma connect_load_fails (d : nat) (s : state) (e : exn) :
  unreadable (net s) (hosts_file s) = Some e ->
  _connect_rec (S d) s
  = (Raise e,
     logged (EvLoadHostKeys (hosts_file s)) (on_self (set_ssh (Some new_client)) s)).
Proof.
  unfold hosts_file. destruct s as [o w]. simpl. intros H.
  unfold load_host_keys. run.
  destruct (known_host_file o) as [f|]; run; rewrite H; reflexivity.
Qed.

(** the client after host keys and policy are set and [connect] was refused *)
Definition refused_client (s : state) (r : refusal) : SSHClient :=
  Client [hosts_file s] true (if transport_created r then Some false else None).

(** the state in which a refused [connect] leaves the adapter and the world *)
Definition after_refusal (s : state) (r : refusal) : state :=
  State (set_ssh (Some (refused_client s r)) (self s))
        (set_log ((log (net s) ++ [EvLoadHostKeys (hosts_file s)])
                  ++ [EvConnect (host (self s)) (params (self s))])
                 (net s)).

(** what [open_sftp] raises on a client whose [connect] was refused *)
Definition no_session_error (r : refusal) : exn :=
  if transport_created r then Exn SSHException "SSH session not active"
  else Exn AttributeError "'NoneType' object has no attribute 'open_sftp_client'".

Lemma connect_auth_fatal (d : nat) (s : state) (r : refusal) :
  unreadable (net s) (hosts_file s) = None ->
  sshd (net s) (host (self s)) (params (self s)) = Some r ->
  is_AuthenticationException (why r) = true ->
  (interactive (self s) && negb (has_key "password" (params (self s))))%bool = false ->
  _connect_rec (S d) s
  = (Raise (Exn AuthenticationException (exn_msg (why r))), after_refusal s r).
Proof.
  unfold hosts_file, after_refusal, refused_client, hosts_file.
  destruct s as [o w]. simpl. intros Hload Hsshd Hauth Hint.
  unfold load_host_keys, set_missing_host_key_policy, ssh_connect, update_client. run.
  destruct (interactive o) eqn:Hi;
    destruct (has_key "password" (params o)) eqn:Hp; try discriminate Hint;
    destruct (known_host_file o) as [f|]; run; rewrite Hload; simpl;
    rewrite Hsshd; simpl; rewrite Hauth; simpl; rewrite ?Hi, ?Hp; simpl;
    reflexivity.
Qed.

Lemma connect_other_swallowed (d : nat) (s : state) (r : refusal) :
  unreadable (net s) (hosts_file s) = None ->
  sshd (net s) (host (self s)) (params (self s)) = Some r ->
  is_AuthenticationException (why r) = false ->
  is_Exception (why r) = true ->
  _connect_rec (S d) s
  = (if hasattr_sftp (self s) then Ok tt else Raise (no_session_error r),
     on_net (fun w => set_stdout (stdout w ++ [exn_msg (why r)]) w) (after_refusal s r)).
Proof.
  unfold hosts_file, after_refusal, refused_client, hosts_file, no_session_error.
  destruct s as [o w]. simpl. intros Hload Hsshd Hauth Hexc.
  unfold load_host_keys, set_missing_host_key_policy, ssh_connect, update_client,
    print, open_sftp. run.
  destruct (known_host_file o) as [f|]; run; rewrite Hload; simpl;
    rewrite Hsshd; simpl; rewrite Hauth, Hexc; simpl;
    unfold hasattr_sftp; simpl;
    destruct (_sftp o); simpl; try reflexivity;
    destruct (transport_created r); reflexivity.
Qed.

(** *** Sample configurations *)

Definition root_dir : inode := Inode Directory 493 0 0.

Definition demo_fs : filesystem :=
  <["/srv/media" := Inode Directory 493 1000 1000]>
    (<["/srv" := root_dir]> (<["/" := root_dir]> ∅)).

Definition demo_storage : SFTPStorage :=
  Storage "files.example.com" ∅ false None (Some 493%Z) None None None
          "/srv/media/" (Some "https://static.example.com/media/"%string) None None.

Definition demo_world : world :=
  World "/home/app" "app" [] [] (fun _ => None) (fun _ _ => None)
        (Account 1000 1000 493 420) demo_fs (fun _ => []) 0 [].

Definition demo : state := State demo_storage demo_world.

Definition with_unreadable (f : string -> option exn) (w : world) : world :=
  World (home w) (login w) (tty w) (stdout w) f (sshd w) (acct w) (fs w)
        (listing w) (channels w) (log w).
Definition with_sshd (f : string -> gmap string string -> option refusal) (w : world)
  : world :=
  World (home w) (login w) (tty w) (stdout w) (unreadable w) f (acct w) (fs w)
        (listing w) (channels w) (log w).

(** no known-hosts file on the local machine *)
Definition demo_no_known_hosts : state :=
  State demo_storage
        (with_unreadable
           (fun f => Some (Exn IOError ("[Errno 2] No such file or directory: " ++ f)%string))
           demo_world).

(** a server that rejects every login *)
Definition demo_bad_login : state :=
  State demo_storage
        (with_sshd
           (fun _ _ => Some (Refusal (Exn AuthenticationException "Authentication failed.") true))
           demo_world).

(** a host that cannot be reached *)
Definition demo_unreachable : state :=
  State demo_storage
        (with_sshd
           (fun _ _ => Some (Refusal (Exn SocketError "[Errno 101] Network is unreachable") false))
           demo_world).

Definition is_connect (e : event) : bool :=
  match e with EvConnect _ _ => true | _ => false end.

(** C3, as stated, fails: with no readable known-hosts file [_connect]
    raises the load error and never sends a login. *)
Lemma known_hosts_failure_stops_connect :
  (_connect 10 demo_no_known_hosts).1
    = Raise (Exn IOError "[Errno 2] No such file or directory: /home/app/.ssh/known_hosts")
  /\ existsb is_connect (log (net (_connect 10 demo_no_known_hosts).2)) = false
  /\ _sftp (self (_connect 10 demo_no_known_hosts).2) = None.
Proof. repeat split; reflexivity. Qed.

(** C3, amended. A failure to load the known-hosts file (the configured one,
    or the user's default) is fatal: [_connect] and the [sftp] property
    raise the load error, no login is attempted and no session is cached. *)
Theorem host_keys_failure_propagates (d : nat) (s : state) (e : exn) :
  unreadable (net s) (hosts_file s) = Some e ->
  exists s',
    _connect (S d) s = (Raise e, s') /\
    log (net s') = log (net s) ++ [EvLoadHostKeys (hosts_file s)] /\
    _sftp (self s') = _sftp (self s) /\
    (_sftp (self s) = None -> sftp (S d) s = (Raise e, s')).
Proof.
  intros H. eexists. split; [apply connect_load_fails, H|].
  repeat split.
  intros Hn. apply sftp_connect_raises; [exact Hn|].
  apply (connect_load_fails d s e H).
Qed.

Lemma host_keys_failure_propagates_witness :
  exists s', _connect 10 demo_no_known_hosts
             = (Raise (Exn IOError "[Errno 2] No such file or directory: /home/app/.ssh/known_hosts"), s').
Proof.
  destruct (host_keys_failure_propagates 9 demo_no_known_hosts
              (Exn IOError "[Errno 2] No such file or directory: /home/app/.ssh/known_hosts")
              eq_refl) as (s' & H & _).
  exists s'. exact H.
Defined.

Lemma after_refusal_same_world (s : state) (r : refusal) :
  hosts_file (after_refusal s r) = hosts_file s /\
  host (self (after_refusal s r)) = host (self s) /\
  params (self (after_refusal s r)) = params (self s) /\
  interactive (self (after_refusal s r)) = interactive (self s) /\
  _sftp (self (after_refusal s r)) = _sftp (self s) /\
  unreadable (net (after_refusal s r)) = unreadable (net s) /\
  sshd (net (after_refusal s r)) = sshd (net s).
Proof. destruct s as [o w]. repeat split. Qed.

(** C4. When the login is refused with an authentication error and the
    interactive fallback is off or a password is already among the
    parameters, [_connect] raises an [AuthenticationException] and caches no
    session: the next access to the [sftp] property loads the host keys and
    logs in again. *)
Theorem auth_failure_is_fatal_and_uncached (d : nat) (s : state) (r : refusal) :
  unreadable (net s) (hosts_file s) = None ->
  sshd (net s) (host (self s)) (params (self s)) = Some r ->
  is_AuthenticationException (why r) = true ->
  interactive (self s) = false \/ has_key "password" (params (self s)) = true ->
  exists e s',
    _connect (S d) s = (Raise e, s') /\
    exn_cls e = AuthenticationException /\
    _sftp (self s') = _sftp (self s) /\
    (_sftp (self s) = None ->
       sftp (S d) s = (Raise e, s') /\
       exists s'',
         sftp (S d) s' = (Raise e, s'') /\
         _sftp (self s'') = None /\
         log (net s'')
         = log (net s') ++ [EvLoadHostKeys (hosts_file s);
                            EvConnect (host (self s)) (params (self s))]).
Proof.
  intros Hload Hsshd Hauth Hfb.
  assert (Hgate : (interactive (self s)
                   && negb (has_key "password" (params (self s))))%bool = false).
  { destruct Hfb as [-> | ->]; [reflexivity | apply andb_false_r]. }
  pose proof (after_refusal_same_world s r) as (Hf & Hh & Hp & Hi & Hs & Hu & Hd).
  exists (Exn AuthenticationException (exn_msg (why r))), (after_refusal s r).
  split; [apply connect_auth_fatal; assumption|].
  split; [reflexivity|]. split; [exact Hs|].
  intros Hnone. split.
  - apply sftp_connect_raises; [exact Hnone|].
    apply connect_auth_fatal; assumption.
  - exists (after_refusal (after_refusal s r) r). split; [|split].
    + apply sftp_connect_raises; [rewrite Hs; exact Hnone|].
      apply connect_auth_fatal.
      * rewrite Hu, Hf. exact Hload.
      * rewrite Hd, Hh, Hp. exact Hsshd.
      * exact Hauth.
      * rewrite Hi, Hp. exact Hgate.
    + destruct s as [o w]. exact Hnone.
    + destruct s as [o w]. simpl. rewrite <- app_assoc. reflexivity.
Qed.

Lemma auth_failure_is_fatal_and_uncached_witness :
  exists e s', _connect 10 demo_bad_login = (Raise e, s')
               /\ exn_cls e = AuthenticationException.
Proof.
  destruct (auth_failure_is_fatal_and_uncached 9 demo_bad_login
              (Refusal (Exn AuthenticationException "Authentication failed.") true)
              eq_refl eq_refl eq_refl (or_introl eq_refl))
    as (e & s' & H & Hc & _).
  exists e, s'. split; assumption.
Defined.

(** C1, on the code. A login refused with any error other than an
    authentication failure is printed, not raised: [_connect] goes on to
    open the channel on the client that never connected, so that the caller
    of the [sftp] property gets the error of that step instead; and when a
    session is already cached [_connect] returns normally. *)
Theorem other_connect_errors_are_swallowed (d : nat) (s : state) (r : refusal) :
  unreadable (net s) (hosts_file s) = None ->
  sshd (net s) (host (self s)) (params (self s)) = Some r ->
  is_AuthenticationException (why r) = false ->
  is_Exception (why r) = true ->
  exists s',
    _connect (S d) s
    = (if hasattr_sftp (self s) then Ok tt else Raise (no_session_error r), s') /\
    stdout (net s') = stdout (net s) ++ [exn_msg (why r)] /\
    (_sftp (self s) = None ->
       sftp (S d) s = (Raise (no_session_error r), s') /\ _sftp (self s') = None).
Proof.
  intros Hload Hsshd Hauth Hexc.
  eexists. split; [apply connect_other_swallowed; assumption|].
  split; [reflexivity|].
  intros Hnone. split.
  - apply sftp_connect_raises; [exact Hnone|]. unfold _connect.
    rewrite (connect_other_swallowed d s r Hload Hsshd Hauth Hexc).
    unfold hasattr_sftp. rewrite Hnone. reflexivity.
  - destruct s as [o w]. exact Hnone.
Qed.

Lemma other_connect_errors_are_swallowed_witness :
  exists s',
    sftp 10 demo_unreachable
    = (Raise (Exn AttributeError "'NoneType' object has no attribute 'open_sftp_client'"), s')
    /\ stdout (net s') = ["[Errno 101] Network is unreachable"%string].
Proof.
  destruct (other_connect_errors_are_swallowed 9 demo_unreachable
              (Refusal (Exn SocketError "[Errno 101] Network is unreachable") false)
              eq_refl eq_refl eq_refl eq_refl)
    as (s' & _ & Hout & H).
  exists s'. split; [apply H; reflexivity | exact Hout].
Defined.

(** ** File handles *)

(** C2, on the code. [close] on a dirty handle hands the buffer's bytes,
    not a file object, to [_save], whose first step [content.open()] raises:
    [close] raises, nothing is sent to the server and nothing is stored. *)
Theorem close_of_dirty_handle_raises (limit : nat) (h : SFTPStorageFile) (s : state) :
  _is_dirty h = true ->
  exists e,
    close limit h s = (Raise e, s) /\
    (forall buf pos, file h = BytesIO buf pos -> file_closed h = false ->
       e = Exn AttributeError "'bytes' object has no attribute 'open'").
Proof.
  intros Hd. unfold close. rewrite Hd. simpl.
  destruct (file h) as [buf pos | path pos] eqn:Hf.
  - destruct (file_closed h) eqn:Hc.
    + eexists. split; [reflexivity|]. intros ? ? _ ?. discriminate.
    + eexists. split; [reflexivity|]. reflexivity.
  - eexists. split; [reflexivity|]. intros ? ? ?. discriminate.
Qed.

(** the handle after [f = storage._open("a.txt", "wb"); f.write(b"hi")] *)
Definition demo_written : SFTPStorageFile :=
  Handle "a.txt" "wb" true (BytesIO [Byte.x68; Byte.x69] 0) false true None.

Lemma demo_written_by_write :
  write (_open "a.txt" "wb") [Byte.x68; Byte.x69] demo = (Ok (tt, demo_written), demo).
Proof. reflexivity. Qed.

Lemma close_of_dirty_handle_raises_witness :
  exists e, close 10 demo_written demo = (Raise e, demo)
            /\ e = Exn AttributeError "'bytes' object has no attribute 'open'".
Proof.
  destruct (close_of_dirty_handle_raises 10 demo_written demo eq_refl) as (e & H & He).
  exists e. split; [exact H | apply (He _ _ eq_refl eq_refl)].
Defined.

(** *** What a run leaves untouched *)

Section Frame.

Variable R : state -> state -> Prop.
Hypothesis R_refl : forall s, R s s.
Hypothesis R_trans : forall a b c, R a b -> R b c -> R a c.

(** every run of [m] relates the state it starts in to the one it ends in *)
Definition keeps {A} (m : M A) : Prop :=
  forall s r s', m s = (r, s') -> R s s'.

Lemma keeps_ret {A} (a : A) : keeps (ret a).
Proof. intros s r s' H. inversion H; subst. apply R_refl. Qed.

Lemma keeps_raise {A} (e : exn) : keeps (@raise A e).
Proof. intros s r s' H. inversion H; subst. apply R_refl. Qed.

Lemma keeps_get : keeps get.
Proof. intros s r s' H. inversion H; subst. apply R_refl. Qed.

Lemma keeps_modify (f : state -> state) :
  (forall s, R s (f s)) -> keeps (modify f).
Proof. intros Hf s r s' H. inversion H; subst. apply Hf. Qed.

Lemma keeps_bind {A B} (m : M A) (k : A -> M B) :
  keeps m -> (forall a, keeps (k a)) -> keeps (bind m k).
Proof.
  intros Hm Hk s r s'. unfold bind.
  destruct (m s) as [[a|e] s1] eqn:E; intros H.
  - eapply R_trans; [eapply Hm, E | eapply Hk, H].
  - inversion H; subst. eapply Hm, E.
Qed.

Lemma keeps_try {A} (m : M A) (h : exn -> M A) :
  keeps m -> (forall e, keeps (h e)) -> keeps (try_except m h).
Proof.
  intros Hm Hh s r s'. unfold try_except.
  destruct (m s) as [[a|e] s1] eqn:E; intros H.
  - inversion H; subst. eapply Hm, E.
  - eapply R_trans; [eapply Hm, E | eapply Hh, H].
Qed.

Lemma keeps_when (b : bool) (m : M unit) : keeps m -> keeps (when b m).
Proof. intros Hm. destruct b; [exact Hm | apply keeps_ret]. Qed.

Lemma keeps_if {A} (b : bool) (m1 m2 : M A) :
  keeps m1 -> keeps m2 -> keeps (if b then m1 else m2).
Proof. destruct b; auto. Qed.

(** the same for the runs of [m] that start in [s] *)
Definition keeps_at {A} (s : state) (m : M A) : Prop :=
  forall r s', m s = (r, s') -> R s s'.

(** code that reads the state first may be judged at the state it reads *)
Lemma keeps_get_bind {A} (k : state -> M A) :
  (forall s, keeps_at s (k s)) -> keeps (bind get k).
Proof. intros Hk s r s' H. apply (Hk s r s' H). Qed.

End Frame.

(** *** Runs that change nothing on the server *)

(** the requests that change the remote file system *)
Definition mutating (e : event) : bool :=
  match e with
  | EvRequest (ReqMkdir _) | EvRequest (ReqChmod _ _) | EvRequest (ReqChown _ _ _)
  | EvRequest (ReqOpenWrite _) | EvRequest (ReqWrite _ _) | EvRequest (ReqRemove _) => true
  | _ => false
  end.

(** from [s] to [s'] the remote file system is the same and only requests
    that change nothing were added to the log *)
Definition quiet (s s' : state) : Prop :=
  fs (net s') = fs (net s) /\
  exists added, log (net s') = log (net s) ++ added
                /\ forallb (fun e => negb (mutating e)) added = true.

Lemma quiet_refl s : quiet s s.
Proof. split; [reflexivity|]. exists []. rewrite app_nil_r. split; reflexivity. Qed.

Lemma quiet_trans a b c : quiet a b -> quiet b c -> quiet a c.
Proof.
  intros [Hf1 (l1 & Hl1 & Hq1)] [Hf2 (l2 & Hl2 & Hq2)]. split; [congruence|].
  exists (l1 ++ l2). rewrite Hl2, Hl1, app_assoc. split; [reflexivity|].
  rewrite forallb_app, Hq1, Hq2. reflexivity.
Qed.

Lemma quiet_local (f : state -> state) :
  (forall s, fs (net (f s)) = fs (net s)) ->
  (forall s, log (net (f s)) = log (net s)) ->
  keeps quiet (modify f).
Proof.
  intros Hf Hl. apply keeps_modify. intros s. split; [apply Hf|].
  exists []. rewrite app_nil_r. split; [apply Hl | reflexivity].
Qed.

Lemma quiet_emit (e : event) : mutating e = false -> keeps quiet (emit e).
Proof.
  intros He. apply keeps_modify. intros s. split; [reflexivity|].
  exists [e]. split; [reflexivity|]. simpl. rewrite He. reflexivity.
Qed.

Ltac quiet_step :=
  first [ apply (keeps_bind quiet quiet_trans)
        | apply (keeps_try quiet quiet_trans)
        | apply (keeps_when quiet quiet_refl)
        | apply (keeps_ret quiet quiet_refl)
        | apply (keeps_raise quiet quiet_refl)
        | apply (keeps_get quiet quiet_refl)
        | apply quiet_emit; reflexivity
        | apply quiet_local; intros [? ?]; reflexivity ].

Ltac quiet_steps := repeat (intros; quiet_step).

Ltac quiet_case :=
  intros;
  match goal with
  | |- keeps _ (match ?x with _ => _ end) => destruct x
  end.

Create HintDb quiet discriminated.

Ltac quiet_auto :=
  repeat (intros;
          first [ assumption | solve [auto 1 with quiet nocore] | quiet_step | quiet_case ]).

Lemma quiet_update_client f : keeps quiet (update_client f).
Proof. unfold update_client. quiet_auto. Qed.

Lemma quiet_load_host_keys f : keeps quiet (load_host_keys f).
Proof. unfold load_host_keys, update_client. quiet_auto. Qed.

Lemma quiet_ssh_connect h ps : keeps quiet (ssh_connect h ps).
Proof. unfold ssh_connect, update_client. quiet_auto. Qed.

Lemma quiet_open_sftp : keeps quiet open_sftp.
Proof. unfold open_sftp. quiet_auto. Qed.

Lemma quiet_getpass : keeps quiet getpass.
Proof. unfold getpass. quiet_auto. Qed.

Lemma quiet_connect_rec d : keeps quiet (_connect_rec d).
Proof.
  induction d as [|d IH]; [simpl; quiet_auto|].
  cbn [_connect_rec].
  unfold load_host_keys, set_missing_host_key_policy, ssh_connect, update_client,
    open_sftp, print, getuser, getpass, set_param.
  quiet_auto.
Qed.

Lemma quiet_sftp limit : keeps quiet (sftp limit).
Proof.
  pose proof (quiet_connect_rec limit). unfold sftp, _connect. quiet_auto.
Qed.

#[local] Hint Resolve quiet_sftp : quiet.

Lemma serve_readonly a r fs0 fs1 :
  mutating (EvRequest r) = false -> serve a r fs0 = Some fs1 -> fs1 = fs0.
Proof.
  destruct r; simpl; try discriminate; intros _;
    destruct (fs0 !! p) as [n|]; try discriminate;
    try (destruct (is_dir n); try discriminate); congruence.
Qed.

Lemma quiet_call c r : mutating (EvRequest r) = false -> keeps quiet (call c r).
Proof.
  intros Hr. unfold call.
  apply (keeps_bind quiet quiet_trans); [apply quiet_emit, Hr|]. intros _.
  intros s res s'. unfold bind, get.
  destruct (serve _ r _) as [fs1|] eqn:E.
  - apply (serve_readonly _ _ _ _ Hr) in E. subst fs1.
    intros H. inversion H; subst. destruct s as [o w]; destruct w.
    apply quiet_refl.
  - destruct (fs (net s) !! _); intros H; inversion H; subst; apply quiet_refl.
Qed.

Lemma quiet_stat c p : keeps quiet (stat c p).
Proof.
  pose proof (quiet_call c (ReqStat p) eq_refl). unfold stat. quiet_auto.
Qed.

#[local] Hint Resolve quiet_stat : quiet.

Lemma quiet_size limit name : keeps quiet (size limit name).
Proof. unfold size. quiet_auto. Qed.

#[local] Hint Resolve quiet_size : quiet.

Lemma quiet_handle_size limit h : keeps quiet (handle_size limit h).
Proof. unfold handle_size. quiet_auto. Qed.

(** *** The life of a handle *)

(** what a caller can do with an open handle *)
Inductive hop :=
| OpRead (num_bytes : option nat)
| OpWrite (content : list Byte.byte)
| OpSize.

(** one operation; the caller keeps the handle when the operation raises *)
Definition apply_op (limit : nat) (op : hop) (h : SFTPStorageFile) (s : state)
  : SFTPStorageFile * state :=
  match op with
  | OpRead n =>
      match read limit h n s with
      | (Ok (_, h'), s') => (h', s')
      | (Raise _, s') => (h, s')
      end
  | OpWrite b =>
      match write h b s with
      | (Ok (_, h'), s') => (h', s')
      | (Raise _, s') => (h, s')
      end
  | OpSize =>
      match handle_size limit h s with
      | (Ok (_, h'), s') => (h', s')
      | (Raise _, s') => (h, s')
      end
  end.

Fixpoint lifetime (limit : nat) (ops : list hop) (h : SFTPStorageFile) (s : state)
  : SFTPStorageFile * state :=
  match ops with
  | [] => (h, s)
  | op :: rest =>
      let '(h', s') := apply_op limit op h s in lifetime limit rest h' s'
  end.

Definition reads_or_writes (op : hop) : bool :=
  match op with OpSize => false | _ => true end.

Lemma size_keeps_clean limit h s :
  _is_dirty (apply_op limit OpSize h s).1 = _is_dirty h
  /\ quiet s (apply_op limit OpSize h s).2.
Proof.
  unfold apply_op.
  destruct (handle_size limit h s) as [[[n h']|e] s'] eqn:E.
  - split; [|apply (quiet_handle_size limit h s _ _ E)].
    unfold handle_size in E. destruct (_size h).
    + inversion E; subst. reflexivity.
    + unfold bind in E. destruct (size limit (_name h) s) as [[n'|e'] s''].
      * inversion E; subst. reflexivity.
      * discriminate.
  - split; [reflexivity | apply (quiet_handle_size limit h s _ _ E)].
Qed.

Lemma lifetime_keeps_clean limit ops :
  forallb (fun op => negb (reads_or_writes op)) ops = true ->
  forall h s,
    _is_dirty h = false ->
    (forall k, _is_dirty (lifetime limit (take k ops) h s).1 = false)
    /\ quiet s (lifetime limit ops h s).2.
Proof.
  induction ops as [|op ops IH]; intros Hops h s Hd.
  - split; [intros k; rewrite take_nil; exact Hd | apply quiet_refl].
  - simpl in Hops. apply andb_true_iff in Hops as [Hop Hops].
    destruct op; try discriminate.
    destruct (size_keeps_clean limit h s) as [Hd1 Hq1].
    cbn [lifetime].
    destruct (apply_op limit OpSize h s) as [h1 s1] eqn:E. cbn [fst snd] in Hd1, Hq1.
    destruct (IH Hops h1 s1) as [Hk Hq]; [congruence|].
    split.
    + intros [|k]; [exact Hd|].
      change (take (S k) (OpSize :: ops)) with (OpSize :: take k ops).
      cbn [lifetime]. rewrite E. apply Hk.
    + exact (quiet_trans _ _ _ Hq1 Hq).
Qed.

(** C8. A handle that is opened (in read mode, or any other) and on which
    neither [read] nor [write] is called has its dirty flag false from
    [_open] to [close]: [close] saves nothing and returns with the state as
    it found it, the remote file system is what it was before [_open], and
    no request that changes it was sent in between. *)
Theorem unread_unwritten_handle_saves_nothing
    (limit : nat) (name mode : string) (ops : list hop) (s : state) :
  forallb (fun op => negb (reads_or_writes op)) ops = true ->
  let h0 := _open name mode in
  let h := (lifetime limit ops h0 s).1 in
  let s1 := (lifetime limit ops h0 s).2 in
  (forall k, _is_dirty (lifetime limit (take k ops) h0 s).1 = false) /\
  exists h',
    close limit h s1 = (Ok (tt, h'), s1) /\
    _is_dirty h' = false /\
    fs (net s1) = fs (net s) /\
    exists sent, log (net s1) = log (net s) ++ sent
                 /\ forallb (fun e => negb (mutating e)) sent = true.
Proof.
  intros Hops h0 h s1.
  destruct (lifetime_keeps_clean limit ops Hops h0 s eq_refl) as [Hk [Hfs Hlog]].
  split; [exact Hk|].
  assert (Hd : _is_dirty h = false).
  { specialize (Hk (length ops)). rewrite firstn_all in Hk. exact Hk. }
  eexists. split; [|split; [|split; [exact Hfs | exact Hlog]]].
  - unfold close. rewrite Hd. reflexivity.
  - reflexivity.
Qed.

(** ** Requests over an established session *)

(** the state after the requests [reqs] were sent and left the server with [fs'] *)
Definition send (reqs : list request) (fs' : filesystem) (s : state) : state :=
  State (self s) (set_fs fs' (set_log (log (net s) ++ (EvRequest <$> reqs)) (net s))).

Lemma send_self reqs fs' s : self (send reqs fs' s) = self s.
Proof. reflexivity. Qed.

Lemma send_fs reqs fs' s : fs (net (send reqs fs' s)) = fs'.
Proof. reflexivity. Qed.

Lemma send_acct reqs fs' s : acct (net (send reqs fs' s)) = acct (net s).
Proof. reflexivity. Qed.

Lemma send_log reqs fs' s :
  log (net (send reqs fs' s)) = log (net s) ++ (EvRequest <$> reqs).
Proof. reflexivity. Qed.

Lemma send_send r1 f1 r2 f2 s : send r2 f2 (send r1 f1 s) = send (r1 ++ r2) f2 s.
Proof. unfold send. simpl. rewrite fmap_app, app_assoc. reflexivity. Qed.

Lemma send_nil s : send [] (fs (net s)) s = s.
Proof.
  destruct s as [o w]; destruct w. unfold send. simpl. rewrite app_nil_r. reflexivity.
Qed.

Lemma call_served c r s fs' :
  serve (acct (net s)) r (fs (net s)) = Some fs' ->
  call c r s = (Ok tt, send [r] fs' s).
Proof.
  intros H. unfold call, bind, emit, modify, get. simpl. rewrite H. reflexivity.
Qed.

Lemma call_refused c r s :
  serve (acct (net s)) r (fs (net s)) = None ->
  exists e, call c r s = (Raise e, send [r] (fs (net s)) s) /\ is_IOError e = true.
Proof.
  intros H. unfold call, bind, emit, modify, get. simpl. rewrite H.
  destruct s as [o w]; destruct w; simpl.
  destruct (_ !! request_path r); eexists; split; reflexivity.
Qed.

Lemma stat_served c p s n :
  fs (net s) !! p = Some n ->
  stat c p s = (Ok (attr_of p n), send [ReqStat p] (fs (net s)) s).
Proof.
  intros H. rewrite (stat_found c p s n H).
  destruct s as [o w]; destruct w; reflexivity.
Qed.

Lemma exists_served limit s c name :
  _sftp (self s) = Some c ->
  let p := _remote_path (self s) name in
  exists_ limit name s
  = (Ok (bool_decide (is_Some (fs (net s) !! p))), send [ReqStat p] (fs (net s)) s).
Proof.
  intros Hc p. unfold exists_.
  rewrite (bind_ok _ _ s s s) by reflexivity. fold p.
  unfold try_except. rewrite (bind_ok _ _ _ _ _ (sftp_cached limit s c Hc)).
  destruct (fs (net s) !! p) as [n|] eqn:E.
  - rewrite (bind_ok _ _ _ _ _ (stat_served c p s n E)). reflexivity.
  - rewrite (bind_raise _ _ _ _ _ (stat_missing c p s E)).
    destruct s as [o w]; destruct w; reflexivity.
Qed.

(** *** [_chown] *)

(** what [_chown] asks the server, for a path whose inode is [n] *)
Definition chown_requests (path : string) (uid gid : option Z) (n : inode)
  : list request :=
  match uid, gid with
  | Some u, Some g => [ReqChown path u g]
  | _, _ => [ReqStat path;
             ReqChown path (Py.or_else uid (i_uid n)) (Py.or_else gid (i_gid n))]
  end.

(** the inode after [_chown] *)
Definition chowned (uid gid : option Z) (n : inode) : inode :=
  match uid, gid with
  | Some u, Some g => Inode (i_kind n) (i_mode n) u g
  | _, _ => Inode (i_kind n) (i_mode n)
                  (Py.or_else uid (i_uid n)) (Py.or_else gid (i_gid n))
  end.

Lemma chown_served limit s c path uid gid n :
  _sftp (self s) = Some c ->
  fs (net s) !! path = Some n ->
  _chown limit path uid gid s
  = (Ok tt, send (chown_requests path uid gid n)
                 (<[path := chowned uid gid n]> (fs (net s))) s).
Proof.
  intros Hc Hn.
  assert (Hdirect : forall u g,
    (c <- sftp limit ;; call c (ReqChown path u g)) s
    = (Ok tt, send [ReqChown path u g]
                   (<[path := Inode (i_kind n) (i_mode n) u g]> (fs (net s))) s)).
  { intros u g. rewrite (bind_ok _ _ _ _ _ (sftp_cached limit s c Hc)).
    apply call_served. simpl. rewrite Hn. reflexivity. }
  assert (Hlookup : forall u g,
    (c <- sftp limit ;; attr <- stat c path ;;
     c' <- sftp limit ;;
     call c' (ReqChown path (Py.or_else u (st_uid attr)) (Py.or_else g (st_gid attr)))) s
    = (Ok tt, send [ReqStat path;
                    ReqChown path (Py.or_else u (i_uid n)) (Py.or_else g (i_gid n))]
                   (<[path := Inode (i_kind n) (i_mode n)
                                    (Py.or_else u (i_uid n)) (Py.or_else g (i_gid n))]>
                      (fs (net s))) s)).
  { intros u g. rewrite (bind_ok _ _ _ _ _ (sftp_cached limit s c Hc)).
    rewrite (bind_ok _ _ _ _ _ (stat_served c path s n Hn)).
    rewrite (bind_ok _ _ _ _ _
               (sftp_cached limit (send [ReqStat path] (fs (net s)) s) c Hc)).
    assert (Hu : st_uid (attr_of path n) = i_uid n) by (unfold attr_of; destruct (i_kind n); reflexivity).
    assert (Hg : st_gid (attr_of path n) = i_gid n) by (unfold attr_of; destruct (i_kind n); reflexivity).
    rewrite Hu, Hg.
    erewrite call_served; [rewrite send_send; reflexivity|].
    simpl. rewrite Hn. reflexivity. }
  unfold _chown, chown_requests, chowned.
  destruct uid as [u|], gid as [g|]; first [apply Hdirect | apply Hlookup].
Qed.

(** ** Ownership *)

Definition is_chown (e : event) : bool :=
  match e with EvRequest (ReqChown _ _ _) => true | _ => false end.

(** neither [uid] nor [gid] is configured to a value Python takes as true *)
Definition unowned (o : SFTPStorage) : bool :=
  negb (Py.truthy (uid o) || Py.truthy (gid o)).

(** if no owner is configured in [s], none is in [s'] and no [chown] was
    sent from [s] to [s'] *)
Definition no_chown (s s' : state) : Prop :=
  unowned (self s) = true ->
  unowned (self s') = true /\
  exists sent, log (net s') = log (net s) ++ sent
               /\ forallb (fun e => negb (is_chown e)) sent = true.

Lemma no_chown_refl s : no_chown s s.
Proof. intros H. split; [exact H|]. exists []. rewrite app_nil_r. split; reflexivity. Qed.

Lemma no_chown_trans a b c : no_chown a b -> no_chown b c -> no_chown a c.
Proof.
  intros H1 H2 Ha. destruct (H1 Ha) as [Hb (l1 & Hl1 & Hq1)].
  destruct (H2 Hb) as [Hc (l2 & Hl2 & Hq2)]. split; [exact Hc|].
  exists (l1 ++ l2). rewrite Hl2, Hl1, app_assoc. split; [reflexivity|].
  rewrite forallb_app, Hq1, Hq2. reflexivity.
Qed.

Lemma no_chown_local (f : state -> state) :
  (forall s, unowned (self (f s)) = unowned (self s)) ->
  (forall s, log (net (f s)) = log (net s)) ->
  keeps no_chown (modify f).
Proof.
  intros Hf Hl. apply keeps_modify. intros s Hs. split; [rewrite Hf; exact Hs|].
  exists []. rewrite app_nil_r. split; [apply Hl | reflexivity].
Qed.

Lemma no_chown_emit (e : event) : is_chown e = false -> keeps no_chown (emit e).
Proof.
  intros He. apply keeps_modify. intros s Hs. split; [exact Hs|].
  exists [e]. split; [reflexivity|]. simpl. rewrite He. reflexivity.
Qed.

Create HintDb calm discriminated.

Ltac calm_step :=
  first [ apply (keeps_bind no_chown no_chown_trans)
        | apply (keeps_try no_chown no_chown_trans)
        | apply (keeps_when no_chown no_chown_refl)
        | apply (keeps_ret no_chown no_chown_refl)
        | apply (keeps_raise no_chown no_chown_refl)
        | apply (keeps_get no_chown no_chown_refl)
        | apply no_chown_emit; reflexivity
        | apply no_chown_local; intros [? ?]; reflexivity ].

Ltac calm_auto :=
  repeat (intros;
          first [ assumption | solve [auto 1 with calm nocore] | calm_step | quiet_case ]).

Lemma no_chown_connect_rec d : keeps no_chown (_connect_rec d).
Proof.
  induction d as [|d IH]; [simpl; calm_auto|].
  cbn [_connect_rec].
  unfold load_host_keys, set_missing_host_key_policy, ssh_connect, update_client,
    open_sftp, print, getuser, getpass, set_param.
  calm_auto.
Qed.

Lemma no_chown_sftp limit : keeps no_chown (sftp limit).
Proof.
  pose proof (no_chown_connect_rec limit). unfold sftp, _connect. calm_auto.
Qed.

#[local] Hint Resolve no_chown_sftp : calm.

Lemma no_chown_call c r : is_chown (EvRequest r) = false -> keeps no_chown (call c r).
Proof.
  intros Hr. unfold call.
  apply (keeps_bind no_chown no_chown_trans); [apply no_chown_emit, Hr|]. intros _.
  apply (keeps_bind no_chown no_chown_trans); [calm_auto|]. intros s0.
  destruct (serve _ r _); [|calm_auto].
  apply no_chown_local; intros [? ?]; reflexivity.
Qed.

Lemma no_chown_stat c p : keeps no_chown (stat c p).
Proof.
  pose proof (no_chown_call c (ReqStat p) eq_refl). unfold stat. calm_auto.
Qed.

#[local] Hint Resolve no_chown_stat : calm.

Lemma no_chown_exists limit name : keeps no_chown (exists_ limit name).
Proof. unfold exists_. calm_auto. Qed.

#[local] Hint Resolve no_chown_exists : calm.

(** the ownership step of [_mkdir] and [_save], judged where it reads the
    configuration *)
Lemma no_chown_guarded limit path s :
  keeps_at no_chown s
    (when (Py.truthy (uid (self s)) || Py.truthy (gid (self s)))%bool
          (_chown limit path (uid (self s)) (gid (self s)))).
Proof.
  intros r s' Hrun Hs.
  assert (E : (Py.truthy (uid (self s)) || Py.truthy (gid (self s)))%bool = false).
  { unfold unowned in Hs. apply negb_true_iff in Hs. exact Hs. }
  rewrite E in Hrun. inversion Hrun; subst. apply no_chown_refl. exact Hs.
Qed.

Lemma no_chown_guarded_ret {A} limit path (a : A) s :
  keeps_at no_chown s
    (when (Py.truthy (uid (self s)) || Py.truthy (gid (self s)))%bool
          (_chown limit path (uid (self s)) (gid (self s))) ;;; ret a).
Proof.
  intros r s' Hrun Hs.
  assert (E : (Py.truthy (uid (self s)) || Py.truthy (gid (self s)))%bool = false).
  { unfold unowned in Hs. apply negb_true_iff in Hs. exact Hs. }
  rewrite E in Hrun. inversion Hrun; subst. apply no_chown_refl. exact Hs.
Qed.

Ltac calm_bind := apply (keeps_bind no_chown no_chown_trans).

Lemma no_chown_mkdir_rec limit d : forall path, keeps no_chown (_mkdir_rec limit d path).
Proof.
  induction d as [|d IH]; intros path; [simpl; calm_auto|].
  cbn [_mkdir_rec].
  calm_bind; [calm_auto|]. intros found.
  calm_bind; [calm_auto; apply IH|]. intros _.
  calm_bind; [calm_auto|]. intros c.
  calm_bind; [apply no_chown_call; reflexivity|]. intros _.
  calm_bind; [calm_auto|]. intros s0.
  calm_bind.
  { destruct (dir_mode (self s0)); [|calm_auto].
    calm_bind; [calm_auto|]. intros c'. apply no_chown_call; reflexivity. }
  intros _. apply keeps_get_bind. intros s. apply no_chown_guarded.
Qed.

Lemma no_chown_save limit name content : keeps no_chown (_save limit name content).
Proof.
  unfold _save.
  calm_bind.
  { unfold content_open. destruct content as [b|f]; [calm_auto|].
    destruct (f_closed f); calm_auto. }
  intros content'. calm_bind; [calm_auto|]. intros s0.
  calm_bind; [calm_auto|]. intros found.
  calm_bind.
  { apply (keeps_when no_chown no_chown_refl). apply no_chown_mkdir_rec. }
  intros _.
  calm_bind; [calm_auto|]. intros c.
  calm_bind; [apply no_chown_call; reflexivity|]. intros _.
  calm_bind.
  { unfold content_file_read. destruct content'; calm_auto. }
  intros data.
  calm_bind; [apply no_chown_call; reflexivity|]. intros _.
  calm_bind; [calm_auto|]. intros s1.
  calm_bind.
  { destruct (file_mode (self s1)); [|calm_auto].
    calm_bind; [calm_auto|]. intros c'. apply no_chown_call; reflexivity. }
  intros _. apply keeps_get_bind. intros s. apply no_chown_guarded_ret.
Qed.

(** an established session, with uid 0 and gid 5 configured *)
Definition demo_root_owner : state :=
  State (Storage "files.example.com" ∅ false None (Some 493%Z) (Some 0%Z) (Some 5%Z) None
                 "/srv/media/" (Some "https://static.example.com/media/"%string)
                 (Some (Client ["/home/app/.ssh/known_hosts"%string] true (Some true)))
                 (Some (Channel 0)))
        demo_world.

Definition hello : File := DjangoFile [Byte.x68; Byte.x69] 0 false.

(** C10, as stated, fails: with uid 0 and gid 5 configured, the saved file,
    created by the account 1000, is handed to owner 0 by [chown(path, 0, 5)]. *)
Lemma zero_uid_with_gid_sets_root_owner :
  let s' := (_save 10 "a.txt" (PyFile hello) demo_root_owner).2 in
  acc_uid (acct (net demo_root_owner)) = 1000%Z
  /\ (_save 10 "a.txt" (PyFile hello) demo_root_owner).1 = Ok "a.txt"%string
  /\ fs (net s') !! "/srv/media/a.txt"%string
     = Some (Inode (Regular [Byte.x68; Byte.x69]) 420 0 5)
  /\ last (log (net s')) = Some (EvRequest (ReqChown "/srv/media/a.txt" 0 5)).
Proof. vm_compute. repeat split; reflexivity. Qed.

Lemma or_else_zero b : Py.or_else (Some 0%Z) b = b.
Proof. reflexivity. Qed.

Lemma or_else_nonzero v b : v <> 0%Z -> Py.or_else (Some v) b = v.
Proof. intros H. unfold Py.or_else. destruct (Z.eqb_spec v 0); congruence. Qed.

(** C10, amended. A configured uid or gid of 0 counts as unset in the test
    that guards the ownership step: when both are 0 or unset, [_save] and
    [_mkdir] send no [chown] at all. Within [_chown], a uid or gid of 0 (or
    [None]) gives way to the path's current owner or group when at least one
    of the two is [None]; when both are given they are sent as they are. *)
Theorem ownership_step_when_configured
    (limit : nat) (s : state) (c : SFTPClient) (path : string) (n : inode) :
  _sftp (self s) = Some c ->
  fs (net s) !! path = Some n ->
  (unowned (self s) = true ->
     (forall name content,
        exists sent,
          log (net (_save limit name content s).2) = log (net s) ++ sent
          /\ forallb (fun e => negb (is_chown e)) sent = true) /\
     (forall dir,
        exists sent,
          log (net (_mkdir limit dir s).2) = log (net s) ++ sent
          /\ forallb (fun e => negb (is_chown e)) sent = true)) /\
  (forall u g,
     _chown limit path (Some u) (Some g) s
     = (Ok tt, send [ReqChown path u g]
                    (<[path := Inode (i_kind n) (i_mode n) u g]> (fs (net s))) s)) /\
  (forall uid gid,
     uid = None \/ gid = None ->
     let u := Py.or_else uid (i_uid n) in
     let g := Py.or_else gid (i_gid n) in
     _chown limit path uid gid s
     = (Ok tt, send [ReqStat path; ReqChown path u g]
                    (<[path := Inode (i_kind n) (i_mode n) u g]> (fs (net s))) s)
     /\ (uid = None \/ uid = Some 0%Z -> u = i_uid n)
     /\ (gid = None \/ gid = Some 0%Z -> g = i_gid n)).
Proof.
  intros Hc Hn. split; [|split].
  - intros Hun. split.
    + intros name content.
      destruct (_save limit name content s) as [r s'] eqn:E.
      destruct (no_chown_save limit name content s r s' E Hun) as [_ H]. exact H.
    + intros dir.
      destruct (_mkdir limit dir s) as [r s'] eqn:E.
      destruct (no_chown_mkdir_rec limit limit dir s r s' E Hun) as [_ H]. exact H.
  - intros u g. apply (chown_served limit s c path (Some u) (Some g) n Hc Hn).
  - intros uid gid Hnone u g. split; [|split].
    + rewrite (chown_served limit s c path uid gid n Hc Hn).
      unfold chown_requests, chowned.
      destruct uid, gid; try reflexivity. destruct Hnone; discriminate.
    + intros [-> | ->]; reflexivity.
    + intros [-> | ->]; reflexivity.
Qed.

Lemma ownership_step_when_configured_witness :
  _chown 10 "/srv/media" (Some 0%Z) (Some 5%Z) demo_root_owner
  = (Ok tt, send [ReqChown "/srv/media" 0 5]
                 (<["/srv/media"%string := Inode Directory 493 0 5]> demo_fs)
                 demo_root_owner).
Proof.
  destruct (ownership_step_when_configured 10 demo_root_owner (Channel 0) "/srv/media"
              (Inode Directory 493 1000 1000) eq_refl eq_refl) as (_ & H & _).
  apply H.
Defined.

(** ** Absolute paths *)

Lemma chars_str l : Py.chars (Py.str l) = l.
Proof. apply list_ascii_of_string_of_list_ascii. Qed.

Lemma join_absolute a b : Py.startswith_sep b = true -> Py.join a b = b.
Proof. unfold Py.join. intros ->. reflexivity. Qed.

Lemma upto_sep_keeps_last l :
  exists l', Py.upto_sep (l ++ [Py.sep]) = l' ++ [Py.sep].
Proof.
  induction l as [|c l IH]; simpl.
  - exists []. reflexivity.
  - destruct (Py.is_sep c).
    + exists (c :: l). reflexivity.
    + exact IH.
Qed.

Lemma strip_seps_keeps_last l :
  forallb Py.is_sep (l ++ [Py.sep]) = false ->
  exists l', Py.strip_seps (l ++ [Py.sep]) = l' ++ [Py.sep].
Proof.
  induction l as [|c l IH]; simpl.
  - discriminate.
  - destruct (Py.is_sep c); simpl.
    + exact IH.
    + intros _. exists (c :: l). reflexivity.
Qed.

Lemma startswith_sep_chars s l :
  Py.chars s = Py.sep :: l -> Py.startswith_sep s = true.
Proof. unfold Py.startswith_sep. intros ->. reflexivity. Qed.

(** the directory of an absolute path is absolute *)
Lemma dirname_absolute p :
  Py.startswith_sep p = true -> Py.startswith_sep (Py.dirname p) = true.
Proof.
  unfold Py.startswith_sep at 1.
  destruct (Py.chars p) as [|c cs] eqn:E; [discriminate|].
  intros Hc. apply Ascii.eqb_eq in Hc. subst c.
  unfold Py.dirname. rewrite E. simpl rev.
  destruct (upto_sep_keeps_last (rev cs)) as [l' Hl']. rewrite Hl'.
  destruct (l' ++ [Py.sep]) as [|x xs] eqn:Ex; [destruct l'; discriminate|].
  rewrite <- Ex.
  destruct (forallb Py.is_sep (l' ++ [Py.sep])) eqn:Hall.
  - apply (startswith_sep_chars _ (rev l')).
    rewrite chars_str, rev_app_distr. reflexivity.
  - destruct (strip_seps_keeps_last l' Hall) as [l'' Hl'']. rewrite Hl''.
    apply (startswith_sep_chars _ (rev l'')).
    rewrite chars_str, rev_app_distr. reflexivity.
Qed.

Lemma iter_dirname_absolute k p :
  Py.startswith_sep p = true -> Py.startswith_sep (Nat.iter k Py.dirname p) = true.
Proof.
  intros H. induction k as [|k IH]; [exact H|]. simpl. apply dirname_absolute, IH.
Qed.

Lemma remote_path_absolute o name :
  Py.startswith_sep (root_path o) = true ->
  Py.startswith_sep (_remote_path o name) = true.
Proof.
  intros Hroot. unfold _remote_path, _join, Py.join.
  destruct (Py.startswith_sep name) eqn:Hn; [exact Hn|].
  unfold Py.startswith_sep in *.
  destruct (Py.chars (root_path o)) as [|c cs] eqn:E; [discriminate|].
  assert (Hr : root_path o = Py.str (c :: cs)).
  { rewrite <- E. unfold Py.str, Py.chars. symmetry.
    apply string_of_list_ascii_of_string. }
  destruct (_ || _)%bool; rewrite Hr; simpl; exact Hroot.
Qed.

(** ** Creating one directory *)

Lemma bind_get {A} (k : state -> M A) s : bind get k s = k s s.
Proof. reflexivity. Qed.

Lemma bind_ret {A B} (a : A) (k : A -> M B) s : bind (ret a) k s = k a s.
Proof. reflexivity. Qed.

(** the inode the server creates for a directory *)
Definition fresh_dir (a : account) : inode :=
  Inode Directory (acc_dirmode a) (acc_uid a) (acc_gid a).

(** the inode after the optional [chmod] *)
Definition moded (mode : option Z) (n : inode) : inode :=
  match mode with
  | Some m => Inode (i_kind n) m (i_uid n) (i_gid n)
  | None => n
  end.

(** the inode after the ownership step *)
Definition owned (o : SFTPStorage) (n : inode) : inode :=
  if (Py.truthy (uid o) || Py.truthy (gid o))%bool then chowned (uid o) (gid o) n else n.

Definition chmod_requests (mode : option Z) (path : string) : list request :=
  match mode with Some m => [ReqChmod path m] | None => [] end.

Definition own_requests (o : SFTPStorage) (path : string) (n : inode) : list request :=
  if (Py.truthy (uid o) || Py.truthy (gid o))%bool
  then chown_requests path (uid o) (gid o) n else [].

Lemma chmod_step limit s c path n (mode : option Z) :
  _sftp (self s) = Some c ->
  fs (net s) !! path = Some n ->
  match mode with
  | Some m => c <- sftp limit ;; call c (ReqChmod path m)
  | None => ret tt
  end s
  = (Ok tt, send (chmod_requests mode path) (<[path := moded mode n]> (fs (net s))) s).
Proof.
  intros Hc Hn. destruct mode as [m|]; simpl.
  - rewrite (bind_ok _ _ _ _ _ (sftp_cached limit s c Hc)).
    apply call_served. simpl. rewrite Hn. reflexivity.
  - rewrite (insert_id _ _ _ Hn), send_nil. reflexivity.
Qed.

Lemma own_step limit s c path n :
  _sftp (self s) = Some c ->
  fs (net s) !! path = Some n ->
  when (Py.truthy (uid (self s)) || Py.truthy (gid (self s)))%bool
       (_chown limit path (uid (self s)) (gid (self s))) s
  = (Ok tt, send (own_requests (self s) path n)
                 (<[path := owned (self s) n]> (fs (net s))) s).
Proof.
  intros Hc Hn. unfold own_requests, owned.
  destruct (Py.truthy (uid (self s)) || Py.truthy (gid (self s)))%bool; simpl.
  - apply (chown_served limit s c path _ _ n Hc Hn).
  - rewrite (insert_id _ _ _ Hn), send_nil. reflexivity.
Qed.

(** [_mkdir] once its parent is there: [mkdir], then mode, then owner *)
Definition mkdir_here (limit : nat) (path : string) : M unit :=
  c <- sftp limit ;;
  call c (ReqMkdir path) ;;;
  s <- get ;;
  match dir_mode (self s) with
  | Some m => c <- sftp limit ;; call c (ReqChmod path m)
  | None => ret tt
  end ;;;
  s <- get ;;
  when (Py.truthy (uid (self s)) || Py.truthy (gid (self s)))%bool
       (_chown limit path (uid (self s)) (gid (self s))).

Lemma mkdir_rec_unfold limit d path :
  _mkdir_rec limit (S d) path
  = (found <- exists_ limit (Py.dirname path) ;;
     when (negb found) (_mkdir_rec limit d (Py.dirname path)) ;;;
     mkdir_here limit path).
Proof. reflexivity. Qed.

(** the directory [_mkdir] leaves behind *)
Definition made_dir (o : SFTPStorage) (a : account) : inode :=
  owned o (moded (dir_mode o) (fresh_dir a)).

Definition mkdir_requests (o : SFTPStorage) (a : account) (path : string)
  : list request :=
  ReqMkdir path
    :: chmod_requests (dir_mode o) path
    ++ own_requests o path (moded (dir_mode o) (fresh_dir a)).

Lemma mkdir_here_served limit s c path d :
  _sftp (self s) = Some c ->
  fs (net s) !! path = None ->
  fs (net s) !! Py.dirname path = Some d ->
  is_dir d = true ->
  mkdir_here limit path s
  = (Ok tt, send (mkdir_requests (self s) (acct (net s)) path)
                 (<[path := made_dir (self s) (acct (net s))]> (fs (net s))) s).
Proof.
  intros Hc Hmiss Hpar Hd. unfold mkdir_here.
  rewrite (bind_ok _ _ _ _ _ (sftp_cached limit s c Hc)).
  set (a := acct (net s)). set (o := self s).
  set (fs1 := <[path := fresh_dir a]> (fs (net s))).
  assert (H1 : call c (ReqMkdir path) s = (Ok tt, send [ReqMkdir path] fs1 s)).
  { apply call_served. simpl. rewrite Hmiss, Hpar, Hd. reflexivity. }
  rewrite (bind_ok _ _ _ _ _ H1). rewrite bind_get.
  set (s1 := send [ReqMkdir path] fs1 s).
  assert (H2 := chmod_step limit s1 c path (fresh_dir a) (dir_mode o) Hc
                  (lookup_insert_eq _ _ _)).
  change (dir_mode (self s1)) with (dir_mode o).
  rewrite (bind_ok _ _ _ _ _ H2). rewrite bind_get.
  set (s2 := send (chmod_requests (dir_mode o) path)
                  (<[path := moded (dir_mode o) (fresh_dir a)]> (fs (net s1))) s1).
  assert (H3 := own_step limit s2 c path (moded (dir_mode o) (fresh_dir a)) Hc
                  (lookup_insert_eq _ _ _)).
  rewrite H3. unfold s2, s1. rewrite !send_send. simpl fs. unfold fs1.
  rewrite !insert_insert_eq. reflexivity.
Qed.

(** ** Creating a chain of directories *)

(** [p] and its [k] nearest ancestors, outermost first *)
Fixpoint ancestors (k : nat) (p : string) : list string :=
  match k with
  | O => [p]
  | S k' => ancestors k' (Py.dirname p) ++ [p]
  end.

(** the file system once [p] and its [k] nearest ancestors hold [v] *)
Fixpoint made_chain (v : inode) (k : nat) (p : string) (t : filesystem) : filesystem :=
  match k with
  | O => <[p := v]> t
  | S k' => <[p := v]> (made_chain v k' (Py.dirname p) t)
  end.

(** what [_mkdir] asks the server when [p] and [k] ancestors are missing *)
Fixpoint chain_requests (o : SFTPStorage) (a : account) (k : nat) (p : string)
  : list request :=
  match k with
  | O => ReqStat (Py.dirname p) :: mkdir_requests o a p
  | S k' => ReqStat (Py.dirname p)
              :: chain_requests o a k' (Py.dirname p) ++ mkdir_requests o a p
  end.

Lemma iter_periodic {A} (f : A -> A) (x : A) (per : nat) :
  0 < per -> Nat.iter per f x = x ->
  forall n, Nat.iter n f x = Nat.iter (n mod per) f x.
Proof.
  intros Hpos Hper n. induction n as [n IH] using lt_wf_ind.
  destruct (Nat.lt_ge_cases n per) as [Hlt|Hge].
  - rewrite Nat.mod_small by exact Hlt. reflexivity.
  - transitivity (Nat.iter ((n - per) + per) f x); [f_equal; lia|].
    rewrite Nat.iter_add, Hper, IH by lia.
    rewrite <- (Nat.Div0.mod_add (n - per) 1 per). do 2 f_equal. lia.
Qed.

Lemma ancestors_elem k : forall p x,
  x ∈ ancestors k p <-> exists j, j <= k /\ x = Nat.iter j Py.dirname p.
Proof.
  induction k as [|k IH]; intros p x; simpl.
  - rewrite list_elem_of_singleton. split.
    + intros ->. exists 0. split; [lia | reflexivity].
    + intros (j & Hj & ->). replace j with 0 by lia. reflexivity.
  - rewrite elem_of_app, list_elem_of_singleton, IH. split.
    + intros [(j & Hj & ->) | ->].
      * exists (S j). split; [lia|]. rewrite Nat.iter_succ_r. reflexivity.
      * exists 0. split; [lia | reflexivity].
    + intros (j & Hj & ->). destruct j as [|j].
      * right. reflexivity.
      * left. exists j. split; [lia|]. rewrite Nat.iter_succ_r. reflexivity.
Qed.

Lemma made_chain_lookup v k : forall p t x,
  made_chain v k p t !! x = if decide (x ∈ ancestors k p) then Some v else t !! x.
Proof.
  induction k as [|k IH]; intros p t x; simpl.
  - destruct (decide (x = p)) as [->|Hne].
    + rewrite lookup_insert_eq, decide_True by (apply list_elem_of_singleton; reflexivity).
      reflexivity.
    + rewrite lookup_insert_ne by congruence.
      rewrite decide_False by (rewrite list_elem_of_singleton; exact Hne). reflexivity.
  - destruct (decide (x = p)) as [->|Hne].
    + rewrite lookup_insert_eq, decide_True; [reflexivity|].
      apply elem_of_app. right. apply list_elem_of_singleton. reflexivity.
    + rewrite lookup_insert_ne by congruence. rewrite IH.
      destruct (decide (x ∈ ancestors k (Py.dirname p))) as [Hin|Hout].
      * rewrite decide_True; [reflexivity|]. apply elem_of_app. left. exact Hin.
      * rewrite decide_False; [reflexivity|].
        rewrite elem_of_app, list_elem_of_singleton. tauto.
Qed.

(** a path with a missing chain below an existing ancestor is none of its
    own proper ancestors *)
Lemma missing_chain_acyclic (t : filesystem) k p dn :
  (forall j, j <= k -> t !! Nat.iter j Py.dirname p = None) ->
  t !! Nat.iter (S k) Py.dirname p = Some dn ->
  forall j, 0 < j -> j <= k -> p <> Nat.iter j Py.dirname p.
Proof.
  intros Hmiss Hanc j Hpos Hj Heq.
  pose proof (iter_periodic Py.dirname p j Hpos (eq_sym Heq) (S k)) as Hper.
  assert (Hlt : S k mod j < j) by (apply Nat.mod_upper_bound; lia).
  rewrite Hper, Hmiss in Hanc by lia. discriminate.
Qed.

Lemma is_dir_made_dir o a : is_dir (made_dir o a) = true.
Proof.
  unfold made_dir, owned, moded, chowned, fresh_dir.
  destruct (_ || _)%bool, (dir_mode o), (uid o), (gid o); reflexivity.
Qed.

Lemma mkdir_chain limit k : forall d s c p dn,
  k < d ->
  _sftp (self s) = Some c ->
  Py.startswith_sep p = true ->
  (forall j, j <= k -> fs (net s) !! Nat.iter j Py.dirname p = None) ->
  fs (net s) !! Nat.iter (S k) Py.dirname p = Some dn ->
  is_dir dn = true ->
  _mkdir_rec limit d p s
  = (Ok tt, send (chain_requests (self s) (acct (net s)) k p)
                 (made_chain (made_dir (self s) (acct (net s))) k p (fs (net s))) s).
Proof.
  induction k as [|k IH]; intros d s c p dn Hd Hc Habs Hmiss Hanc Hdn;
    (destruct d as [|d]; [lia|]); rewrite mkdir_rec_unfold;
    pose proof (exists_served limit s c (Py.dirname p) Hc) as Hex;
    cbv zeta in Hex; unfold _remote_path, _join in Hex;
    rewrite (join_absolute _ _ (dirname_absolute p Habs)) in Hex;
    rewrite (bind_ok _ _ _ _ _ Hex).
  - change (Nat.iter 1 Py.dirname p) with (Py.dirname p) in Hanc.
    rewrite Hanc, bool_decide_true by eauto. simpl negb. cbn [when].
    rewrite bind_ret.
    rewrite (mkdir_here_served limit (send [ReqStat (Py.dirname p)] (fs (net s)) s)
               c p dn Hc (Hmiss 0 (le_n 0)) Hanc Hdn).
    rewrite send_send. reflexivity.
  - assert (Hpar : fs (net s) !! Py.dirname p = None) by (apply (Hmiss 1); lia).
    rewrite Hpar, bool_decide_false by (intros [? ?]; discriminate).
    simpl negb. cbn [when].
    set (s1 := send [ReqStat (Py.dirname p)] (fs (net s)) s).
    assert (Hm1 : forall j, j <= k ->
                fs (net s1) !! Nat.iter j Py.dirname (Py.dirname p) = None).
    { intros j Hj. rewrite <- Nat.iter_succ_r. apply Hmiss. lia. }
    assert (Ha1 : fs (net s1) !! Nat.iter (S k) Py.dirname (Py.dirname p) = Some dn).
    { rewrite <- Nat.iter_succ_r. exact Hanc. }
    assert (Hrec := IH d s1 c (Py.dirname p) dn ltac:(lia) Hc
                      (dirname_absolute p Habs) Hm1 Ha1 Hdn).
    rewrite (bind_ok _ _ _ _ _ Hrec); clear Hrec.
    set (made := made_dir (self s1) (acct (net s1))).
    set (t := made_chain made k (Py.dirname p) (fs (net s1))).
    assert (Hp : t !! p = None).
    { unfold t. rewrite made_chain_lookup, decide_False; [apply (Hmiss 0); lia|].
      rewrite ancestors_elem. intros (j & Hj & Heq).
      rewrite <- Nat.iter_succ_r in Heq.
      apply (missing_chain_acyclic _ _ _ _ Hmiss Hanc (S j)); [lia | lia | exact Heq]. }
    assert (Hparent : t !! Py.dirname p = Some made).
    { unfold t. rewrite made_chain_lookup, decide_True; [reflexivity|].
      rewrite ancestors_elem. exists 0. split; [lia | reflexivity]. }
    rewrite (mkdir_here_served limit
               (send (chain_requests (self s1) (acct (net s1)) k (Py.dirname p)) t s1)
               c p made Hc Hp Hparent (is_dir_made_dir _ _)).
    unfold s1. rewrite !send_send. reflexivity.
Qed.

(** *** Replaying what was sent *)

(** the server's table after the requests [reqs]; a refused request leaves it *)
Definition replay (a : account) (reqs : list request) (t : filesystem) : filesystem :=
  foldl (fun t r => default t (serve a r t)) t reqs.

(** every [mkdir] among [reqs] finds the parent of its target in place, as a
    directory, at the time it is sent *)
Fixpoint parents_exist (a : account) (t : filesystem) (reqs : list request) : bool :=
  match reqs with
  | [] => true
  | r :: rest =>
      match r with
      | ReqMkdir q =>
          match t !! Py.dirname q with Some d => is_dir d | None => false end
      | _ => true
      end && parents_exist a (default t (serve a r t)) rest
  end.

Definition mkdir_target (r : request) : option string :=
  match r with ReqMkdir q => Some q | _ => None end.

Lemma replay_app a r1 r2 t : replay a (r1 ++ r2) t = replay a r2 (replay a r1 t).
Proof. unfold replay. apply foldl_app. Qed.

Lemma parents_exist_app a r1 : forall t r2,
  parents_exist a t (r1 ++ r2)
  = (parents_exist a t r1 && parents_exist a (replay a r1 t) r2)%bool.
Proof.
  induction r1 as [|r r1 IH]; intros t r2; simpl; [reflexivity|].
  rewrite IH, andb_assoc. reflexivity.
Qed.

(** requests that keep clear of [mkdir] *)
Definition no_mkdir (reqs : list request) : Prop := omap mkdir_target reqs = [].

Lemma parents_exist_no_mkdir a reqs : forall t,
  no_mkdir reqs -> parents_exist a t reqs = true.
Proof.
  unfold no_mkdir. induction reqs as [|r reqs IH]; intros t H; simpl; [reflexivity|].
  destruct r; simpl in H; try discriminate; rewrite IH by exact H; reflexivity.
Qed.

Lemma replay_chown a path uid gid n t :
  t !! path = Some n ->
  replay a (chown_requests path uid gid n) t = <[path := chowned uid gid n]> t
  /\ no_mkdir (chown_requests path uid gid n).
Proof.
  intros Hn. unfold chown_requests, chowned, replay.
  destruct uid, gid; simpl; rewrite ?Hn; simpl; rewrite ?Hn; split; reflexivity.
Qed.

Lemma replay_own a o path n t :
  t !! path = Some n ->
  replay a (own_requests o path n) t = <[path := owned o n]> t
  /\ no_mkdir (own_requests o path n).
Proof.
  intros Hn. unfold own_requests, owned.
  destruct (_ || _)%bool; [apply replay_chown, Hn|].
  split; [|reflexivity]. simpl. rewrite insert_id by exact Hn. reflexivity.
Qed.

Lemma replay_chmod a mode path n t :
  t !! path = Some n ->
  replay a (chmod_requests mode path) t = <[path := moded mode n]> t
  /\ no_mkdir (chmod_requests mode path).
Proof.
  intros Hn. unfold chmod_requests, moded, replay.
  destruct mode; simpl; rewrite ?Hn; simpl; split; try reflexivity.
  rewrite insert_id by exact Hn. reflexivity.
Qed.

Lemma replay_mkdir a o p d t :
  t !! p = None -> t !! Py.dirname p = Some d -> is_dir d = true ->
  replay a (mkdir_requests o a p) t = <[p := made_dir o a]> t
  /\ parents_exist a t (mkdir_requests o a p) = true
  /\ omap mkdir_target (mkdir_requests o a p) = [p].
Proof.
  intros Hp Hpar Hd. unfold mkdir_requests.
  set (t1 := <[p := fresh_dir a]> t).
  assert (H1 : default t (serve a (ReqMkdir p) t) = t1).
  { simpl. rewrite Hp, Hpar, Hd. reflexivity. }
  destruct (replay_chmod a (dir_mode o) p (fresh_dir a) t1 (lookup_insert_eq _ _ _))
    as [Hc Hcn].
  destruct (replay_own a o p (moded (dir_mode o) (fresh_dir a))
              (<[p := moded (dir_mode o) (fresh_dir a)]> t1) (lookup_insert_eq _ _ _))
    as [Ho Hon].
  split; [|split].
  - change (replay a (?r :: ?rs) t) with (replay a rs (default t (serve a r t))).
    rewrite H1, replay_app, Hc, Ho. unfold t1, made_dir.
    rewrite !insert_insert_eq. reflexivity.
  - cbn [parents_exist]. rewrite Hpar, Hd, H1. simpl.
    apply parents_exist_no_mkdir. unfold no_mkdir in *.
    rewrite omap_app, Hcn, Hon. reflexivity.
  - cbn [omap mkdir_target list_omap]. unfold no_mkdir in *.
    change (omap mkdir_target (ReqMkdir p :: ?l)) with (p :: omap mkdir_target l).
    rewrite omap_app, Hcn, Hon. reflexivity.
Qed.

Lemma serve_stat a q t : default t (serve a (ReqStat q) t) = t.
Proof. simpl. destruct (t !! q); reflexivity. Qed.

Lemma replay_chain a o k : forall p t dn,
  (forall j, j <= k -> t !! Nat.iter j Py.dirname p = None) ->
  t !! Nat.iter (S k) Py.dirname p = Some dn ->
  is_dir dn = true ->
  replay a (chain_requests o a k p) t = made_chain (made_dir o a) k p t
  /\ parents_exist a t (chain_requests o a k p) = true
  /\ omap mkdir_target (chain_requests o a k p) = ancestors k p.
Proof.
  induction k as [|k IH]; intros p t dn Hmiss Hanc Hdn; cbn [chain_requests].
  - destruct (replay_mkdir a o p dn t (Hmiss 0 (le_n _)) Hanc Hdn) as (Hr & Hp & Hm).
    split; [|split].
    + change (replay a (?r :: ?rs) t) with (replay a rs (default t (serve a r t))).
      rewrite serve_stat. exact Hr.
    + cbn [parents_exist]. rewrite serve_stat. exact Hp.
    + change (omap mkdir_target (ReqStat ?q :: ?l)) with (omap mkdir_target l).
      exact Hm.
  - assert (Hm1 : forall j, j <= k -> t !! Nat.iter j Py.dirname (Py.dirname p) = None).
    { intros j Hj. rewrite <- Nat.iter_succ_r. apply Hmiss. lia. }
    assert (Ha1 : t !! Nat.iter (S k) Py.dirname (Py.dirname p) = Some dn).
    { rewrite <- Nat.iter_succ_r. exact Hanc. }
    destruct (IH (Py.dirname p) t dn Hm1 Ha1 Hdn) as (Hr & Hp & Hm).
    set (t1 := made_chain (made_dir o a) k (Py.dirname p) t) in *.
    assert (Hp1 : t1 !! p = None).
    { unfold t1. rewrite made_chain_lookup, decide_False; [apply (Hmiss 0); lia|].
      rewrite ancestors_elem. intros (j & Hj & Heq).
      rewrite <- Nat.iter_succ_r in Heq.
      apply (missing_chain_acyclic _ _ _ _ Hmiss Hanc (S j)); [lia | lia | exact Heq]. }
    assert (Hparent : t1 !! Py.dirname p = Some (made_dir o a)).
    { unfold t1. rewrite made_chain_lookup, decide_True; [reflexivity|].
      rewrite ancestors_elem. exists 0. split; [lia | reflexivity]. }
    destruct (replay_mkdir a o p _ t1 Hp1 Hparent (is_dir_made_dir o a))
      as (Hr2 & Hp2 & Hm2).
    split; [|split].
    + change (replay a (?r :: ?rs) t) with (replay a rs (default t (serve a r t))).
      rewrite serve_stat, replay_app, Hr. exact Hr2.
    + cbn [parents_exist]. rewrite serve_stat, parents_exist_app, Hp, Hr. exact Hp2.
    + change (omap mkdir_target (ReqStat ?q :: ?l)) with (omap mkdir_target l).
      rewrite omap_app, Hm, Hm2. reflexivity.
Qed.

Lemma made_dir_mode o a :
  i_mode (made_dir o a) = default (acc_dirmode a) (dir_mode o).
Proof.
  unfold made_dir, owned, moded, chowned, fresh_dir.
  destruct (_ || _)%bool, (dir_mode o), (uid o), (gid o); reflexivity.
Qed.

Lemma made_dir_owner o a :
  if (Py.truthy (uid o) || Py.truthy (gid o))%bool
  then i_uid (made_dir o a) = default (acc_uid a) (uid o)
       /\ i_gid (made_dir o a) = default (acc_gid a) (gid o)
  else i_uid (made_dir o a) = acc_uid a /\ i_gid (made_dir o a) = acc_gid a.
Proof.
  unfold made_dir, owned, moded, chowned, fresh_dir, Py.truthy, Py.or_else.
  destruct (uid o) as [u|], (gid o) as [g|], (dir_mode o); simpl;
    repeat match goal with
           | |- context [(?x =? 0)%Z] => destruct (x =? 0)%Z; simpl
           end; split; reflexivity.
Qed.

(** C6. When the directory of a saved path and [k] of its ancestors are
    missing below an existing directory, [exists] sends [_save] into
    [_mkdir], which succeeds (its recursion being within the limit): it
    sends one [mkdir] per missing directory, outermost first, each at a time
    when the parent of its target is in place; every directory it creates
    has the configured mode and, when [uid or gid] is set, the configured
    owner and group; what existed before is left as it was. *)
Theorem mkdir_creates_missing_ancestors
    (limit k : nat) (s : state) (c : SFTPClient) (name : string) (dn : inode) :
  let o := self s in
  let a := acct (net s) in
  let dir := Py.dirname (_remote_path o name) in
  _sftp o = Some c ->
  Py.startswith_sep (root_path o) = true ->
  k < limit ->
  (forall j, j <= k -> fs (net s) !! Nat.iter j Py.dirname dir = None) ->
  fs (net s) !! Nat.iter (S k) Py.dirname dir = Some dn ->
  is_dir dn = true ->
  (exists_ limit dir s).1 = Ok false /\
  exists reqs t,
    _mkdir limit dir s = (Ok tt, send reqs t s) /\
    omap mkdir_target reqs = ancestors k dir /\
    parents_exist a (fs (net s)) reqs = true /\
    replay a reqs (fs (net s)) = t /\
    (forall q, q ∈ ancestors k dir ->
       t !! q = Some (made_dir o a) /\ fs (net s) !! q = None) /\
    (forall q, q ∉ ancestors k dir -> t !! q = fs (net s) !! q) /\
    is_dir (made_dir o a) = true /\
    (forall m, dir_mode o = Some m -> i_mode (made_dir o a) = m) /\
    ((Py.truthy (uid o) || Py.truthy (gid o))%bool = true ->
       (forall u, uid o = Some u -> i_uid (made_dir o a) = u) /\
       (forall g, gid o = Some g -> i_gid (made_dir o a) = g)).
Proof.
  intros o a dir Hc Hroot Hk Hmiss Hanc Hdn.
  assert (Habs : Py.startswith_sep dir = true).
  { apply dirname_absolute, remote_path_absolute, Hroot. }
  split.
  { pose proof (exists_served limit s c dir Hc) as Hex. cbv zeta in Hex.
    unfold _remote_path, _join in Hex. rewrite (join_absolute _ _ Habs) in Hex.
    rewrite Hex. pose proof (Hmiss 0 (Nat.le_0_l k)) as H0.
    change (Nat.iter 0 Py.dirname dir) with dir in H0. cbn [fst]. rewrite H0.
    rewrite bool_decide_false by (intros [? ?]; discriminate). reflexivity. }
  destruct (replay_chain a o k dir (fs (net s)) dn Hmiss Hanc Hdn) as (Hr & Hp & Hm).
  exists (chain_requests o a k dir), (made_chain (made_dir o a) k dir (fs (net s))).
  split; [apply (mkdir_chain limit k limit s c dir dn Hk Hc Habs Hmiss Hanc Hdn)|].
  split; [exact Hm|]. split; [exact Hp|]. split; [exact Hr|].
  split; [|split; [|split; [|split]]].
  - intros q Hq. rewrite made_chain_lookup, decide_True by exact Hq.
    split; [reflexivity|]. apply ancestors_elem in Hq as (j & Hj & ->).
    apply Hmiss, Hj.
  - intros q Hq. rewrite made_chain_lookup, decide_False by exact Hq. reflexivity.
  - apply is_dir_made_dir.
  - intros m Hm'. rewrite made_dir_mode, Hm'. reflexivity.
  - intros Ht. pose proof (made_dir_owner o a) as Ho. rewrite Ht in Ho.
    destruct Ho as [Hu Hg]. split.
    + intros u Hu'. rewrite Hu, Hu'. reflexivity.
    + intros g Hg'. rewrite Hg, Hg'. reflexivity.
Qed.

(** *** Sample runs *)

(** the sample adapter with its session established *)
Definition demo_connected : state :=
  State (Storage "files.example.com" ∅ false None (Some 493%Z) None (Some 33%Z) None
                 "/srv/media/" (Some "https://static.example.com/media/"%string)
                 (Some (Client ["/home/app/.ssh/known_hosts"%string] true (Some true)))
                 (Some (Channel 0)))
        demo_world.

Lemma mkdir_creates_missing_ancestors_witness :
  exists reqs t,
    _mkdir 10 "/srv/media/x/y" demo_connected = (Ok tt, send reqs t demo_connected)
    /\ omap mkdir_target reqs = ["/srv/media/x"; "/srv/media/x/y"]%string.
Proof.
  assert (Hmiss : forall j, j <= 1 ->
            fs (net demo_connected)
              !! Nat.iter j Py.dirname
                   (Py.dirname (_remote_path (self demo_connected) "x/y/b.txt")) = None).
  { intros j Hj. destruct j as [|[|j]]; [reflexivity | reflexivity | lia]. }
  destruct (mkdir_creates_missing_ancestors 10 1 demo_connected (Channel 0) "x/y/b.txt"
              (Inode Directory 493 1000 1000) eq_refl eq_refl ltac:(lia) Hmiss
              eq_refl eq_refl)
    as (_ & reqs & t & Hrun & Hm & _).
  exists reqs, t. split; [exact Hrun | exact Hm].
Defined.

Lemma exists_returns_boolean_witness :
  exists_ 10 "a.txt" demo_connected
  = (Ok false, logged (EvRequest (ReqStat "/srv/media/a.txt")) demo_connected).
Proof.
  destruct (exists_returns_boolean 10 demo_connected "a.txt" (Channel 0) eq_refl)
    as (_ & _ & H & _).
  apply H. reflexivity.
Defined.

(** a server with a directory [docs] that lists a directory and a file *)
Definition demo_listing : state :=
  State (self demo_connected)
        (World "/home/app" "app" [] [] (fun _ => None) (fun _ _ => None)
               (Account 1000 1000 493 420)
               (<["/srv/media/docs" := Inode Directory 493 1000 1000]> demo_fs)
               (fun _ => [Attr "sub" (Some 16877%Z) 1000 1000 4096;
                          Attr "a" (Some 33188%Z) 1000 1000 2])
               1 []).

Lemma listdir_splits_listing_witness :
  exists s', listdir 10 "docs" demo_listing = (Ok (["sub"%string], ["a"%string]), s').
Proof.
  destruct (listdir_splits_listing 10 demo_listing "docs" (Channel 0)
              (Inode Directory 493 1000 1000) eq_refl eq_refl eq_refl)
    as (dirs & files & s' & Hrun & _ & Hd & Hf & _).
  exists s'. rewrite Hrun, Hd, Hf. reflexivity.
Defined.

Lemma unread_unwritten_handle_saves_nothing_witness :
  fs (net (lifetime 10 [OpSize] (_open "a.txt" "rb") demo_connected).2)
  = fs (net demo_connected).
Proof.
  destruct (unread_unwritten_handle_saves_nothing 10 "a.txt" "rb" [OpSize]
              demo_connected eq_refl) as (_ & h' & _ & _ & H & _).
  exact H.
Defined.

Lemma url_joins_base_and_name_witness :
  url Urlparse.urljoin "a/b.txt" demo
  = (Ok "https://static.example.com/media/a/b.txt"%string, demo).
Proof.
  destruct (url_joins_base_and_name Urlparse.urljoin demo "a/b.txt") as (_ & _ & H).
  apply H. reflexivity.
Defined.

(** * Further properties of the adapter *)

(** ** The session is established once *)

Lemma bind_ok_inv {A B} (m : M A) (k : A -> M B) s b s' :
  bind m k s = (Ok b, s') ->
  exists a s1, m s = (Ok a, s1) /\ k a s1 = (Ok b, s').
Proof.
  unfold bind. destruct (m s) as [[a|e] s1]; intros H; [|discriminate].
  exists a, s1. split; [reflexivity | exact H].
Qed.

(** the last step of [_connect]: open the channel unless one is cached *)
Definition ensure_channel : M unit :=
  s <- get ;;
  when (negb (hasattr_sftp (self s)))
       (c <- open_sftp ;; modify (on_self (set_sftp (Some c)))).

Lemma ensure_channel_ok s s' :
  ensure_channel s = (Ok tt, s') -> is_Some (_sftp (self s')).
Proof.
  unfold ensure_channel. rewrite bind_get. unfold hasattr_sftp.
  destruct (_sftp (self s)) as [c|] eqn:E; simpl.
  - intros H. inversion H; subst. rewrite E. eauto.
  - intros H. apply bind_ok_inv in H as (c & s1 & _ & H).
    inversion H; subst. simpl. eauto.
Qed.

Lemma bind_inv {A B} (m : M A) (k : A -> M B) s r s' :
  bind m k s = (r, s') ->
  (exists e, m s = (Raise e, s') /\ r = Raise e)
  \/ (exists a s1, m s = (Ok a, s1) /\ k a s1 = (r, s')).
Proof.
  unfold bind. destruct (m s) as [[a|e] s1]; intros H.
  - right. exists a, s1. split; [reflexivity | exact H].
  - left. exists e. inversion H; subst. split; reflexivity.
Qed.

Lemma connect_rec_tail d s r s' :
  _connect_rec (S d) s = (r, s') ->
  (exists e, r = Raise e) \/ (exists s1, ensure_channel s1 = (r, s')).
Proof.
  cbn [_connect_rec]. fold ensure_channel. intros H.
  apply bind_inv in H as [(e & _ & ->) | (? & s0 & _ & H)]; [left; eauto|].
  rewrite bind_get in H.
  apply bind_inv in H as [(e & _ & ->) | (? & s1 & _ & H)]; [left; eauto|].
  apply bind_inv in H as [(e & _ & ->) | (? & s2 & _ & H)]; [left; eauto|].
  apply bind_inv in H as [(e & _ & ->) | (? & s3 & _ & H)]; [left; eauto|].
  right. exists s3. exact H.
Qed.

Lemma connect_ok_caches d s s' :
  _connect_rec d s = (Ok tt, s') -> is_Some (_sftp (self s')).
Proof.
  destruct d as [|d]; [discriminate|]. intros H.
  destruct (connect_rec_tail d s _ _ H) as [[e He] | [s1 H1]]; [discriminate|].
  apply (ensure_channel_ok _ _ H1).
Qed.

(** X. The [sftp] property is idempotent: the session it returns is cached,
    a later access returns the same session without any effect, and a
    cached session is returned as it is; an access never ends in Python
    finding no [_sftp] attribute after [_connect] returned. *)
Theorem sftp_is_lazy_and_idempotent (limit : nat) (s : state) :
  (forall c s', sftp limit s = (Ok c, s') ->
     _sftp (self s') = Some c /\ sftp limit s' = (Ok c, s')) /\
  (forall c, _sftp (self s) = Some c -> sftp limit s = (Ok c, s)) /\
  (forall e s', sftp limit s = (Raise e, s') ->
     _sftp (self s) = None /\ _connect limit s = (Raise e, s')).
Proof.
  split; [|split].
  - intros c s'. unfold sftp. rewrite bind_get.
    destruct (hasattr_sftp (self s)) eqn:Hh; simpl.
    + rewrite bind_ret, bind_get. unfold hasattr_sftp in Hh.
      destruct (_sftp (self s)) as [c0|] eqn:E; [|discriminate].
      intros H. injection H as Hc0 Hs. rewrite <- Hs, <- Hc0.
      split; [exact E | apply sftp_cached, E].
    + intros H. apply bind_ok_inv in H as ([] & s1 & Hc & H).
      rewrite bind_get in H. destruct (_sftp (self s1)) as [c1|] eqn:E; [|discriminate].
      injection H as Hc1 Hs. rewrite <- Hs, <- Hc1.
      split; [exact E | apply sftp_cached, E].
  - intros c Hc. apply sftp_cached, Hc.
  - intros e s'. unfold sftp. rewrite bind_get. unfold hasattr_sftp.
    destruct (_sftp (self s)) as [c0|] eqn:E; cbn [negb when].
    + rewrite bind_ret, bind_get, E. discriminate.
    + intros H. apply bind_inv in H as [(e1 & Hc & He) | ([] & s1 & Hc & H)].
      * inversion He; subst. split; [reflexivity | exact Hc].
      * rewrite bind_get in H.
        destruct (connect_ok_caches _ _ _ Hc) as [c1 E1]. rewrite E1 in H. discriminate.
Qed.

(** ** Establishing the session *)

(** the client once host keys and policy are set and [connect] succeeded *)
Definition connected_client (s : state) : SSHClient :=
  Client [hosts_file s] true (Some true).

(** the state after a first, accepted, connection *)
Definition after_connect (s : state) : state :=
  State (set_sftp (Some (Channel (channels (net s))))
                  (set_ssh (Some (connected_client s)) (self s)))
        (set_channels (S (channels (net s)))
           (set_log (((log (net s) ++ [EvLoadHostKeys (hosts_file s)])
                      ++ [EvConnect (host (self s)) (params (self s))])
                     ++ [EvOpenSftp])
                    (net s))).

Lemma connect_accepted (d : nat) (s : state) :
  _sftp (self s) = None ->
  unreadable (net s) (hosts_file s) = None ->
  sshd (net s) (host (self s)) (params (self s)) = None ->
  _connect_rec (S d) s = (Ok tt, after_connect s).
Proof.
  unfold hosts_file, after_connect, connected_client, hosts_file.
  destruct s as [o w]. simpl. intros Hnone Hload Hsshd.
  unfold load_host_keys, set_missing_host_key_policy, ssh_connect, update_client,
    open_sftp. run.
  destruct (known_host_file o) as [f|]; run; rewrite Hload; simpl;
    rewrite Hsshd; simpl; unfold hasattr_sftp; simpl; rewrite Hnone; simpl;
    reflexivity.
Qed.

(** X. The first access to [sftp] establishes the session in this order:
    host keys are loaded, the login is sent with the configured parameters,
    the channel is opened and cached; the client trusts unknown hosts, and
    the remote file system is not touched. *)
Theorem first_access_connects (d : nat) (s : state) :
  _sftp (self s) = None ->
  unreadable (net s) (hosts_file s) = None ->
  sshd (net s) (host (self s)) (params (self s)) = None ->
  exists s',
    sftp (S d) s = (Ok (Channel (channels (net s))), s') /\
    _sftp (self s') = Some (Channel (channels (net s))) /\
    _ssh (self s') = Some (Client [hosts_file s] true (Some true)) /\
    channels (net s') = S (channels (net s)) /\
    fs (net s') = fs (net s) /\
    log (net s') = log (net s) ++ [EvLoadHostKeys (hosts_file s);
                                   EvConnect (host (self s)) (params (self s));
                                   EvOpenSftp].
Proof.
  intros Hnone Hload Hsshd. exists (after_connect s).
  split; [|repeat split].
  - unfold sftp. rewrite bind_get. unfold hasattr_sftp. rewrite Hnone. cbn [negb when].
    unfold _connect. rewrite (bind_ok _ _ _ _ _ (connect_accepted d s Hnone Hload Hsshd)).
    reflexivity.
  - destruct s as [o w]. simpl. rewrite <- !app_assoc. reflexivity.
Qed.

Lemma first_access_connects_witness :
  exists s', sftp 10 demo = (Ok (Channel 0), s')
             /\ log (net s') = [EvLoadHostKeys "/home/app/.ssh/known_hosts";
                                EvConnect "files.example.com" ∅; EvOpenSftp].
Proof.
  destruct (first_access_connects 9 demo eq_refl eq_refl eq_refl)
    as (s' & H & _ & _ & _ & _ & Hl).
  exists s'. split; [exact H | exact Hl].
Defined.

(** the parameters after the prompt: the login name unless a user name is
    given, and the password that was typed *)
Definition prompted_params (s : state) (line : string) : gmap string string :=
  <["password" := line]>
    (if has_key "username" (params (self s)) then params (self s)
     else <["username" := login (net s)]> (params (self s))).

(** the state in which the prompt leaves the adapter and the world *)
Definition after_prompt (s : state) (r : refusal) (line : string) (rest : list string)
  : state :=
  State (set_params (prompted_params s line)
                    (set_ssh (Some (refused_client s r)) (self s)))
        (set_tty rest
           (set_log ((log (net s) ++ [EvLoadHostKeys (hosts_file s)])
                     ++ [EvConnect (host (self s)) (params (self s))])
                    (net s))).

Lemma connect_interactive (d : nat) (s : state) (r : refusal) line rest :
  unreadable (net s) (hosts_file s) = None ->
  sshd (net s) (host (self s)) (params (self s)) = Some r ->
  is_AuthenticationException (why r) = true ->
  interactive (self s) = true ->
  has_key "password" (params (self s)) = false ->
  tty (net s) = line :: rest ->
  _connect_rec (S d) s
  = (_connect_rec d ;;; ensure_channel) (after_prompt s r line rest).
Proof.
  unfold hosts_file, after_prompt, prompted_params, refused_client, hosts_file,
    ensure_channel.
  destruct s as [o w]. simpl. intros Hload Hsshd Hauth Hi Hp Htty.
  unfold load_host_keys, set_missing_host_key_policy, ssh_connect, update_client,
    getuser, getpass, set_param. run.
  destruct (known_host_file o) as [f|]; run; rewrite Hload; simpl;
    rewrite Hsshd; simpl; rewrite Hauth; simpl; rewrite Hi, Hp; simpl;
    destruct (has_key "username" (params o)); simpl; rewrite Htty; simpl;
    reflexivity.
Qed.

Lemma has_key_insert k v (m : gmap string string) : has_key k (<[k := v]> m) = true.
Proof. unfold has_key. rewrite lookup_insert_eq. reflexivity. Qed.

(** X. The interactive fallback retries exactly once. After an
    authentication failure with [interactive] set and no password among the
    parameters, [_connect] fills in the login name unless a user name is
    given, reads one password and connects again with these parameters: if
    the server accepts them the session is cached; if it rejects them the
    [AuthenticationException] is raised without a second prompt. *)
Theorem interactive_fallback_retries_once
    (d : nat) (s : state) (r : refusal) (line : string) (rest : list string) :
  _sftp (self s) = None ->
  unreadable (net s) (hosts_file s) = None ->
  sshd (net s) (host (self s)) (params (self s)) = Some r ->
  is_AuthenticationException (why r) = true ->
  interactive (self s) = true ->
  has_key "password" (params (self s)) = false ->
  tty (net s) = line :: rest ->
  let ps := prompted_params s line in
  (sshd (net s) (host (self s)) ps = None ->
     exists s',
       _connect (S (S d)) s = (Ok tt, s') /\
       _sftp (self s') = Some (Channel (channels (net s))) /\
       params (self s') = ps /\
       tty (net s') = rest /\
       log (net s')
       = log (net s) ++ [EvLoadHostKeys (hosts_file s);
                         EvConnect (host (self s)) (params (self s));
                         EvLoadHostKeys (hosts_file s);
                         EvConnect (host (self s)) ps;
                         EvOpenSftp]) /\
  (forall r',
     sshd (net s) (host (self s)) ps = Some r' ->
     is_AuthenticationException (why r') = true ->
     exists s',
       _connect (S (S d)) s
       = (Raise (Exn AuthenticationException (exn_msg (why r'))), s') /\
       _sftp (self s') = None /\
       tty (net s') = rest /\
       log (net s')
       = log (net s) ++ [EvLoadHostKeys (hosts_file s);
                         EvConnect (host (self s)) (params (self s));
                         EvLoadHostKeys (hosts_file s);
                         EvConnect (host (self s)) ps]).
Proof.
  intros Hnone Hload Hsshd Hauth Hi Hp Htty ps.
  pose proof (connect_interactive (S d) s r line rest Hload Hsshd Hauth Hi Hp Htty) as Hstep.
  set (s2 := after_prompt s r line rest) in *.
  assert (Hf2 : hosts_file s2 = hosts_file s) by (destruct s as [o w]; reflexivity).
  assert (Hpw : has_key "password" (params (self s2)) = true).
  { destruct s as [o w]. apply has_key_insert. }
  split.
  - intros Hacc. exists (after_connect s2).
    assert (H2 : _connect_rec (S d) s2 = (Ok tt, after_connect s2)).
    { apply connect_accepted.
      - destruct s as [o w]. exact Hnone.
      - rewrite Hf2. destruct s as [o w]. exact Hload.
      - destruct s as [o w]. exact Hacc. }
    split; [|repeat split].
    + unfold _connect. rewrite Hstep. rewrite (bind_ok _ _ _ _ _ H2). reflexivity.
    + destruct s as [o w]. simpl. rewrite <- !app_assoc. reflexivity.
  - intros r' Hrej Hauth'. exists (after_refusal s2 r').
    assert (H2 : _connect_rec (S d) s2
                 = (Raise (Exn AuthenticationException (exn_msg (why r'))),
                    after_refusal s2 r')).
    { apply connect_auth_fatal.
      - rewrite Hf2. destruct s as [o w]. exact Hload.
      - destruct s as [o w]. exact Hrej.
      - exact Hauth'.
      - rewrite Hpw. apply andb_false_r. }
    split; [|repeat split].
    + unfold _connect. rewrite Hstep. apply (bind_raise _ _ _ _ _ H2).
    + destruct s as [o w]. exact Hnone.
    + destruct s as [o w]. simpl. rewrite <- !app_assoc. reflexivity.
Qed.

(** a server that lets [app] in with the password [s3cret] only *)
Definition demo_password_only : state :=
  State (Storage "files.example.com" ∅ true None (Some 493%Z) None None None
                 "/srv/media/" None None None)
        (World "/home/app" "app" ["s3cret"%string] [] (fun _ => None)
               (fun _ ps => if bool_decide (ps !! "password"%string = Some "s3cret"%string)
                            then None
                            else Some (Refusal (Exn AuthenticationException
                                                    "Authentication failed.") true))
               (Account 1000 1000 493 420) demo_fs (fun _ => []) 0 []).

Lemma interactive_fallback_retries_once_witness :
  exists s', _connect 10 demo_password_only = (Ok tt, s')
             /\ _sftp (self s') = Some (Channel 0)
             /\ tty (net s') = [].
Proof.
  destruct (interactive_fallback_retries_once 8 demo_password_only
              (Refusal (Exn AuthenticationException "Authentication failed.") true)
              "s3cret" [] eq_refl eq_refl eq_refl eq_refl eq_refl eq_refl eq_refl)
    as [H _].
  destruct (H eq_refl) as (s' & Hrun & Hs & _ & Ht & _).
  exists s'. repeat split; assumption.
Defined.

(** ** Storing a file *)

(** the inode [open(path, 'wb')] leaves: an existing file is emptied and
    keeps mode and owner, a new one gets the account's *)
Definition opened (a : account) (old : option inode) : inode :=
  match old with
  | Some n => Inode (Regular []) (i_mode n) (i_uid n) (i_gid n)
  | None => Inode (Regular []) (acc_filemode a) (acc_uid a) (acc_gid a)
  end.

Definition written (data : list Byte.byte) (n : inode) : inode :=
  Inode (Regular data) (i_mode n) (i_uid n) (i_gid n).

(** the inode [_save] leaves at the path *)
Definition saved_file (o : SFTPStorage) (a : account) (old : option inode)
    (data : list Byte.byte) : inode :=
  owned o (moded (file_mode o) (written data (opened a old))).

Definition file_requests (o : SFTPStorage) (a : account) (path : string)
    (old : option inode) (data : list Byte.byte) : list request :=
  ReqOpenWrite path :: ReqWrite path data
    :: chmod_requests (file_mode o) path
    ++ own_requests o path (moded (file_mode o) (written data (opened a old))).

(** [_save] from the point where the directory is there *)
Definition store_file (limit : nat) (name path : string) (content : pyobj) : M string :=
  c <- sftp limit ;;
  call c (ReqOpenWrite path) ;;;
  data <- content_file_read content ;;
  call c (ReqWrite path data) ;;;
  s <- get ;;
  match file_mode (self s) with
  | Some m => c <- sftp limit ;; call c (ReqChmod path m)
  | None => ret tt
  end ;;;
  s <- get ;;
  when (Py.truthy (uid (self s)) || Py.truthy (gid (self s)))%bool
       (_chown limit path (uid (self s)) (gid (self s))) ;;;
  ret name.

Lemma save_unfold limit name content :
  _save limit name content
  = (content <- content_open content ;;
     s <- get ;;
     found <- exists_ limit (Py.dirname (_remote_path (self s) name)) ;;
     when (negb found) (_mkdir limit (Py.dirname (_remote_path (self s) name))) ;;;
     store_file limit name (_remote_path (self s) name) content).
Proof. reflexivity. Qed.

(** a path that can be opened for writing: free, or a regular file *)
Definition writable (old : option inode) : bool :=
  match old with Some n => negb (is_dir n) | None => true end.

Lemma store_file_served limit s c name path data pos d :
  _sftp (self s) = Some c ->
  fs (net s) !! Py.dirname path = Some d ->
  is_dir d = true ->
  writable (fs (net s) !! path) = true ->
  store_file limit name path (PyFile (DjangoFile data pos false)) s
  = (Ok name,
     send (file_requests (self s) (acct (net s)) path (fs (net s) !! path) (drop pos data))
          (<[path := saved_file (self s) (acct (net s)) (fs (net s) !! path)
                                (drop pos data)]> (fs (net s))) s).
Proof.
  intros Hc Hpar Hd Hw. unfold store_file.
  rewrite (bind_ok _ _ _ _ _ (sftp_cached limit s c Hc)).
  set (a := acct (net s)). set (o := self s). set (old := fs (net s) !! path) in *.
  set (fs1 := <[path := opened a old]> (fs (net s))).
  assert (H1 : call c (ReqOpenWrite path) s = (Ok tt, send [ReqOpenWrite path] fs1 s)).
  { apply call_served. simpl. fold old. unfold fs1, opened.
    destruct old as [n|]; simpl in Hw.
    - apply negb_true_iff in Hw. rewrite Hw. reflexivity.
    - rewrite Hpar, Hd. reflexivity. }
  rewrite (bind_ok _ _ _ _ _ H1). cbn [content_file_read f_pos f_data]. rewrite bind_ret.
  set (s1 := send [ReqOpenWrite path] fs1 s).
  set (fs2 := <[path := written (drop pos data) (opened a old)]> fs1).
  assert (H2 : call c (ReqWrite path (drop pos data)) s1
               = (Ok tt, send [ReqWrite path (drop pos data)] fs2 s1)).
  { apply call_served. simpl. unfold fs1. rewrite lookup_insert_eq.
    unfold opened. destruct old; reflexivity. }
  rewrite (bind_ok _ _ _ _ _ H2). rewrite bind_get.
  set (s2 := send [ReqWrite path (drop pos data)] fs2 s1).
  assert (H3 := chmod_step limit s2 c path (written (drop pos data) (opened a old))
                  (file_mode o) Hc (lookup_insert_eq _ _ _)).
  change (file_mode (self s2)) with (file_mode o).
  rewrite (bind_ok _ _ _ _ _ H3). rewrite bind_get.
  set (s3 := send (chmod_requests (file_mode o) path)
                  (<[path := moded (file_mode o) (written (drop pos data) (opened a old))]>
                     (fs (net s2))) s2).
  assert (H4 := own_step limit s3 c path
                  (moded (file_mode o) (written (drop pos data) (opened a old))) Hc
                  (lookup_insert_eq _ _ _)).
  rewrite (bind_ok _ _ _ _ _ H4). unfold ret, s3, s2, s1.
  rewrite !send_send. simpl fs. unfold fs2, fs1.
  rewrite !insert_insert_eq. reflexivity.
Qed.

Lemma saved_file_kind o a old data : i_kind (saved_file o a old data) = Regular data.
Proof.
  unfold saved_file, owned, moded, chowned, written.
  destruct (_ || _)%bool, (file_mode o), (uid o), (gid o); reflexivity.
Qed.

Lemma saved_file_mode o a old data :
  i_mode (saved_file o a old data)
  = default (i_mode (opened a old)) (file_mode o).
Proof.
  unfold saved_file, owned, moded, chowned, written.
  destruct (_ || _)%bool, (file_mode o), (uid o), (gid o); reflexivity.
Qed.

Lemma save_served limit s c name f d :
  let path := _remote_path (self s) name in
  _sftp (self s) = Some c ->
  Py.startswith_sep (root_path (self s)) = true ->
  f_closed f = false ->
  fs (net s) !! Py.dirname path = Some d ->
  is_dir d = true ->
  writable (fs (net s) !! path) = true ->
  _save limit name (PyFile f) s
  = (Ok name,
     send (ReqStat (Py.dirname path)
             :: file_requests (self s) (acct (net s)) path (fs (net s) !! path) (f_data f))
          (<[path := saved_file (self s) (acct (net s)) (fs (net s) !! path) (f_data f)]>
             (fs (net s))) s).
Proof.
  intros path Hc Hroot Hopen Hpar Hd Hw. rewrite save_unfold.
  unfold content_open. rewrite Hopen. rewrite bind_ret, bind_get. fold path.
  assert (Habs : Py.startswith_sep (Py.dirname path) = true).
  { apply dirname_absolute, remote_path_absolute, Hroot. }
  pose proof (exists_served limit s c (Py.dirname path) Hc) as Hex. cbv zeta in Hex.
  assert (Hrp : _remote_path (self s) (Py.dirname path) = Py.dirname path)
    by apply (join_absolute _ _ Habs).
  rewrite Hrp in Hex.
  rewrite (bind_ok _ _ _ _ _ Hex).
  rewrite Hpar, bool_decide_true by eauto. cbn [negb when]. rewrite bind_ret.
  rewrite (store_file_served limit (send [ReqStat (Py.dirname path)] (fs (net s)) s)
             c name path (f_data f) 0 d Hc Hpar Hd Hw).
  rewrite send_send. reflexivity.
Qed.

Lemma save_chain_served limit k s c name f dn :
  let path := _remote_path (self s) name in
  let dir := Py.dirname path in
  _sftp (self s) = Some c ->
  Py.startswith_sep (root_path (self s)) = true ->
  f_closed f = false ->
  k < limit ->
  fs (net s) !! path = None ->
  (forall j, j <= k -> fs (net s) !! Nat.iter j Py.dirname dir = None) ->
  fs (net s) !! Nat.iter (S k) Py.dirname dir = Some dn ->
  is_dir dn = true ->
  _save limit name (PyFile f) s
  = (Ok name,
     send (ReqStat dir
             :: chain_requests (self s) (acct (net s)) k dir
             ++ file_requests (self s) (acct (net s)) path None (f_data f))
          (<[path := saved_file (self s) (acct (net s)) None (f_data f)]>
             (made_chain (made_dir (self s) (acct (net s))) k dir (fs (net s)))) s).
Proof.
  intros path dir Hc Hroot Hopen Hk Hfree Hmiss Hanc Hdn. rewrite save_unfold.
  unfold content_open. rewrite Hopen. rewrite bind_ret, bind_get. fold path. fold dir.
  assert (Habs : Py.startswith_sep dir = true).
  { apply dirname_absolute, remote_path_absolute, Hroot. }
  pose proof (exists_served limit s c dir Hc) as Hex. cbv zeta in Hex.
  assert (Hrp : _remote_path (self s) dir = dir) by apply (join_absolute _ _ Habs).
  rewrite Hrp in Hex.
  rewrite (bind_ok _ _ _ _ _ Hex).
  pose proof (Hmiss 0 (Nat.le_0_l k)) as H0.
  change (Nat.iter 0 Py.dirname dir) with dir in H0.
  rewrite H0, bool_decide_false by (intros [? ?]; discriminate). cbn [negb when].
  set (s1 := send [ReqStat dir] (fs (net s)) s).
  pose proof (mkdir_chain limit k limit s1 c dir dn Hk Hc Habs Hmiss Hanc Hdn) as Hch.
  unfold _mkdir. rewrite (bind_ok _ _ _ _ _ Hch).
  set (made := made_dir (self s1) (acct (net s1))).
  set (t := made_chain made k dir (fs (net s1))).
  assert (Hp : t !! path = None).
  { unfold t. rewrite made_chain_lookup, decide_False; [exact Hfree|].
    rewrite ancestors_elem. intros (j & Hj & Heq).
    unfold dir in Heq. rewrite <- Nat.iter_succ_r in Heq.
    assert (Hm' : forall i, i <= S k -> fs (net s) !! Nat.iter i Py.dirname path = None).
    { intros [|i] Hi; [exact Hfree|]. rewrite Nat.iter_succ_r. apply Hmiss. lia. }
    assert (Ha' : fs (net s) !! Nat.iter (S (S k)) Py.dirname path = Some dn).
    { rewrite Nat.iter_succ_r. exact Hanc. }
    apply (missing_chain_acyclic _ _ _ _ Hm' Ha' (S j)); [lia | lia | exact Heq]. }
  assert (Hparent : t !! Py.dirname path = Some made).
  { unfold t. rewrite made_chain_lookup, decide_True; [reflexivity|].
    rewrite ancestors_elem. exists 0. split; [lia | reflexivity]. }
  pose proof (store_file_served limit
                (send (chain_requests (self s1) (acct (net s1)) k dir) t s1)
                c name path (f_data f) 0 made Hc Hparent (is_dir_made_dir _ _)) as Hst.
  cbn [send_fs] in Hst. change (fs (net (send ?r ?x ?y))) with x in Hst.
  rewrite Hp in Hst. rewrite (Hst eq_refl).
  unfold s1. rewrite !send_send. reflexivity.
Qed.

(** ** Reading back *)

Lemma size_served limit s c name n :
  _sftp (self s) = Some c ->
  fs (net s) !! _remote_path (self s) name = Some n ->
  size limit name s
  = (Ok (st_size (attr_of (_remote_path (self s) name) n)),
     send [ReqStat (_remote_path (self s) name)] (fs (net s)) s).
Proof.
  intros Hc Hn. unfold size. rewrite bind_get.
  rewrite (bind_ok _ _ _ _ _ (sftp_cached limit s c Hc)).
  rewrite (bind_ok _ _ _ _ _ (stat_served c _ s n Hn)). reflexivity.
Qed.

Lemma delete_served limit s c name n :
  _sftp (self s) = Some c ->
  fs (net s) !! _remote_path (self s) name = Some n ->
  is_dir n = false ->
  delete limit name s
  = (Ok tt, send [ReqRemove (_remote_path (self s) name)]
                 (base.delete (_remote_path (self s) name) (fs (net s))) s).
Proof.
  intros Hc Hn Hd. unfold delete. rewrite bind_get.
  rewrite (bind_ok _ _ _ _ _ (sftp_cached limit s c Hc)).
  apply call_served. simpl. rewrite Hn, Hd. reflexivity.
Qed.

Lemma read_served limit s c h data m u g num_bytes :
  let path := _remote_path (self s) (_name h) in
  let out := match num_bytes with Some n => take n data | None => data end in
  _sftp (self s) = Some c ->
  _is_read h = false ->
  fs (net s) !! path = Some (Inode (Regular data) m u g) ->
  read limit h num_bytes s
  = (Ok (out, Handle (_name h) (_mode h) (_is_dirty h) (SFTPFile path (length out)) false
                     true (_size h)),
     send [ReqOpenRead path] (fs (net s)) s).
Proof.
  intros path out Hc Hr Hn. unfold read. rewrite Hr.
  assert (H1 : _read limit (_name h) s = (Ok path, send [ReqOpenRead path] (fs (net s)) s)).
  { unfold _read. rewrite bind_get. fold path.
    rewrite (bind_ok _ _ _ _ _ (sftp_cached limit s c Hc)).
    erewrite bind_ok; [reflexivity|].
    apply call_served. simpl. rewrite Hn. reflexivity. }
  rewrite (bind_ok _ _ _ _ _ (bind_ok _ _ _ _ _ H1)).
  cbn [file_closed file]. unfold stream_read, bind, get, ret.
  change (fs (net (send [ReqOpenRead path] (fs (net s)) s))) with (fs (net s)).
  rewrite Hn. rewrite drop_0. reflexivity.
Qed.

(** X. [_save] of an open file whose directory exists returns the name and
    leaves, at the resolved path, a regular file with the whole content of
    the source (read from its start, wherever its position was), with
    [file_mode] when configured; no other path changes. Right after it
    [exists] is [True], [size] is the length of the content and a first
    [read] of a fresh handle returns the content. *)
Theorem save_then_read_roundtrip
    (limit : nat) (s : state) (c : SFTPClient) (name mode : string) (f : File) (d : inode) :
  let path := _remote_path (self s) name in
  _sftp (self s) = Some c ->
  Py.startswith_sep (root_path (self s)) = true ->
  f_closed f = false ->
  fs (net s) !! Py.dirname path = Some d ->
  is_dir d = true ->
  writable (fs (net s) !! path) = true ->
  exists s' n,
    _save limit name (PyFile f) s = (Ok name, s') /\
    fs (net s') !! path = Some n /\
    i_kind n = Regular (f_data f) /\
    (forall m, file_mode (self s) = Some m -> i_mode n = m) /\
    (forall q, q <> path -> fs (net s') !! q = fs (net s) !! q) /\
    (exists_ limit name s').1 = Ok true /\
    (size limit name s').1 = Ok (Z.of_nat (length (f_data f))) /\
    exists h' s'', read limit (_open name mode) None s' = (Ok (f_data f, h'), s'')
                   /\ fs (net s'') = fs (net s').
Proof.
  intros path Hc Hroot Hopen Hpar Hd Hw.
  pose proof (save_served limit s c name f d Hc Hroot Hopen Hpar Hd Hw) as Hsave.
  cbv zeta in Hsave. fold path in Hsave.
  set (n := saved_file (self s) (acct (net s)) (fs (net s) !! path) (f_data f)) in *.
  set (s' := send _ _ s) in Hsave.
  assert (Hn : fs (net s') !! path = Some n) by apply lookup_insert_eq.
  assert (Hkind : i_kind n = Regular (f_data f)) by apply saved_file_kind.
  exists s', n. split; [exact Hsave|]. split; [exact Hn|]. split; [exact Hkind|].
  split; [|split; [|split; [|split]]].
  - intros m Hm. unfold n. rewrite saved_file_mode, Hm. reflexivity.
  - intros q Hq. apply lookup_insert_ne. congruence.
  - rewrite (exists_served limit s' c name Hc). cbn [fst].
    change (_remote_path (self s') name) with path. rewrite Hn.
    rewrite bool_decide_true by eauto. reflexivity.
  - rewrite (size_served limit s' c name n Hc Hn). cbn [fst].
    unfold attr_of. rewrite Hkind. reflexivity.
  - destruct n as [kd md ud gd]. simpl in Hkind. subst kd.
    eexists. eexists. split.
    + apply (read_served limit s' c (_open name mode) (f_data f) md ud gd None Hc eq_refl Hn).
    + reflexivity.
Qed.

Lemma save_then_read_roundtrip_witness :
  exists h' s'',
    read 10 (_open "a.txt" "rb") None (_save 10 "a.txt" (PyFile hello) demo_connected).2
    = (Ok ([Byte.x68; Byte.x69], h'), s'').
Proof.
  destruct (save_then_read_roundtrip 10 demo_connected (Channel 0) "a.txt" "rb" hello
              (Inode Directory 493 1000 1000) eq_refl eq_refl eq_refl eq_refl eq_refl
              eq_refl)
    as (s' & n & Hsave & _ & _ & _ & _ & _ & _ & h' & s'' & Hread & _).
  exists h', s''. rewrite Hsave. exact Hread.
Defined.

(** X. [_save] below missing directories: with the path free and [k]
    directories missing under an existing one, [_save] creates those
    directories, outermost first and before the file is opened, stores the
    content at the path and changes nothing else. *)
Theorem save_creates_missing_directories
    (limit k : nat) (s : state) (c : SFTPClient) (name : string) (f : File) (dn : inode) :
  let path := _remote_path (self s) name in
  let dir := Py.dirname path in
  _sftp (self s) = Some c ->
  Py.startswith_sep (root_path (self s)) = true ->
  f_closed f = false ->
  k < limit ->
  fs (net s) !! path = None ->
  (forall j, j <= k -> fs (net s) !! Nat.iter j Py.dirname dir = None) ->
  fs (net s) !! Nat.iter (S k) Py.dirname dir = Some dn ->
  is_dir dn = true ->
  exists reqs t n,
    _save limit name (PyFile f) s = (Ok name, send reqs t s) /\
    omap mkdir_target reqs = ancestors k dir /\
    (exists before after,
       reqs = before ++ ReqOpenWrite path :: after
       /\ omap mkdir_target after = []) /\
    t !! path = Some n /\ i_kind n = Regular (f_data f) /\
    (forall q, q ∈ ancestors k dir -> t !! q = Some (made_dir (self s) (acct (net s)))) /\
    (forall q, q ∉ ancestors k dir -> q <> path -> t !! q = fs (net s) !! q).
Proof.
  intros path dir Hc Hroot Hopen Hk Hfree Hmiss Hanc Hdn.
  pose proof (save_chain_served limit k s c name f dn Hc Hroot Hopen Hk Hfree Hmiss
                Hanc Hdn) as Hsave. cbv zeta in Hsave. fold path in Hsave. fold dir in Hsave.
  destruct (replay_chain (acct (net s)) (self s) k dir (fs (net s)) dn Hmiss Hanc Hdn)
    as (_ & _ & Hm).
  assert (Hfile : omap mkdir_target
                    (chmod_requests (file_mode (self s)) path
                     ++ own_requests (self s) path
                          (moded (file_mode (self s))
                             (written (f_data f) (opened (acct (net s)) None)))) = []).
  { rewrite omap_app.
    destruct (replay_chmod (acct (net s)) (file_mode (self s)) path
                (Inode Directory 0 0 0) {[path := Inode Directory 0 0 0]}
                (lookup_singleton_eq _ _)) as [_ ->].
    unfold own_requests, chown_requests.
    destruct (_ || _)%bool, (uid (self s)), (gid (self s)); reflexivity. }
  eexists _, _, (saved_file (self s) (acct (net s)) None (f_data f)).
  split; [exact Hsave|]. split; [|split; [|split; [|split; [|split]]]].
  - change (omap mkdir_target (ReqStat dir :: ?l)) with (omap mkdir_target l).
    rewrite omap_app, Hm. unfold file_requests.
    change (omap mkdir_target (ReqOpenWrite path :: ReqWrite path ?d :: ?l))
      with (omap mkdir_target l).
    rewrite Hfile, app_nil_r. reflexivity.
  - exists (ReqStat dir :: chain_requests (self s) (acct (net s)) k dir). eexists.
    split; [reflexivity|].
    change (omap mkdir_target (ReqWrite path ?d :: ?l)) with (omap mkdir_target l).
    exact Hfile.
  - apply lookup_insert_eq.
  - apply saved_file_kind.
  - intros q Hq. destruct (decide (q = path)) as [->|Hne].
    + exfalso. apply ancestors_elem in Hq as (j & Hj & Heq).
      unfold dir in Heq. rewrite <- Nat.iter_succ_r in Heq.
      assert (Hm' : forall i, i <= S k -> fs (net s) !! Nat.iter i Py.dirname path = None).
      { intros [|i] Hi; [exact Hfree|]. rewrite Nat.iter_succ_r. apply Hmiss. lia. }
      assert (Ha' : fs (net s) !! Nat.iter (S (S k)) Py.dirname path = Some dn).
      { rewrite Nat.iter_succ_r. exact Hanc. }
      apply (missing_chain_acyclic _ _ _ _ Hm' Ha' (S j)); [lia | lia | exact Heq].
    + rewrite lookup_insert_ne by congruence.
      rewrite made_chain_lookup, decide_True by exact Hq. reflexivity.
  - intros q Hq Hne. rewrite lookup_insert_ne by congruence.
    rewrite made_chain_lookup, decide_False by exact Hq. reflexivity.
Qed.

Lemma save_creates_missing_directories_witness :
  exists reqs t,
    _save 10 "x/y/b.txt" (PyFile hello) demo_connected
    = (Ok "x/y/b.txt"%string, send reqs t demo_connected)
    /\ omap mkdir_target reqs = ["/srv/media/x"; "/srv/media/x/y"]%string.
Proof.
  assert (Hmiss : forall j, j <= 1 ->
            fs (net demo_connected)
              !! Nat.iter j Py.dirname
                   (Py.dirname (_remote_path (self demo_connected) "x/y/b.txt")) = None).
  { intros j Hj. destruct j as [|[|j]]; [reflexivity | reflexivity | lia]. }
  destruct (save_creates_missing_directories 10 1 demo_connected (Channel 0) "x/y/b.txt"
              hello (Inode Directory 493 1000 1000) eq_refl eq_refl eq_refl ltac:(lia)
              eq_refl Hmiss eq_refl eq_refl)
    as (reqs & t & n & Hrun & Hm & _).
  exists reqs, t. split; [exact Hrun | exact Hm].
Defined.

(** ** Deleting *)

Lemma delete_refused limit s c name :
  _sftp (self s) = Some c ->
  (forall n, fs (net s) !! _remote_path (self s) name = Some n -> is_dir n = true) ->
  exists e,
    delete limit name s
    = (Raise e, send [ReqRemove (_remote_path (self s) name)] (fs (net s)) s)
    /\ is_IOError e = true.
Proof.
  intros Hc Hn. unfold delete. rewrite bind_get.
  rewrite (bind_ok _ _ _ _ _ (sftp_cached limit s c Hc)).
  apply call_refused. simpl.
  destruct (fs (net s) !! _remote_path (self s) name) as [n|]; [|reflexivity].
  rewrite (Hn n eq_refl). reflexivity.
Qed.

(** X. [delete] removes the regular file at the resolved path and nothing
    else; afterwards [exists] is [False] and a second [delete] raises an
    [IOError]. A missing path or a directory makes [delete] raise an
    [IOError] and leaves the remote file system as it is. *)
Theorem delete_removes_the_file (limit : nat) (s : state) (c : SFTPClient) (name : string) :
  let path := _remote_path (self s) name in
  _sftp (self s) = Some c ->
  (forall n, fs (net s) !! path = Some n -> is_dir n = false ->
     exists s',
       delete limit name s = (Ok tt, s') /\
       fs (net s') !! path = None /\
       (forall q, q <> path -> fs (net s') !! q = fs (net s) !! q) /\
       (exists_ limit name s').1 = Ok false /\
       exists e s'', delete limit name s' = (Raise e, s'') /\ is_IOError e = true
                     /\ fs (net s'') = fs (net s')) /\
  ((forall n, fs (net s) !! path = Some n -> is_dir n = true) ->
     exists e s', delete limit name s = (Raise e, s') /\ is_IOError e = true
                  /\ fs (net s') = fs (net s)).
Proof.
  intros path Hc. split.
  - intros n Hn Hd.
    pose proof (delete_served limit s c name n Hc Hn Hd) as Hdel. fold path in Hdel.
    set (s' := send _ _ s) in Hdel.
    assert (Hgone : fs (net s') !! path = None) by apply lookup_delete_eq.
    exists s'. split; [exact Hdel|]. split; [exact Hgone|].
    split; [|split].
    + intros q Hq. apply lookup_delete_ne. congruence.
    + rewrite (exists_served limit s' c name Hc). cbn [fst].
      change (_remote_path (self s') name) with path. rewrite Hgone.
      rewrite bool_decide_false by (intros [? ?]; discriminate). reflexivity.
    + destruct (delete_refused limit s' c name Hc) as (e & He & Hio).
      { intros n' Hn'. change (_remote_path (self s') name) with path in Hn'.
        rewrite Hgone in Hn'. discriminate. }
      exists e. eexists. split; [exact He|]. split; [exact Hio | reflexivity].
  - intros Hn. destruct (delete_refused limit s c name Hc Hn) as (e & He & Hio).
    exists e. eexists. split; [exact He|]. split; [exact Hio | reflexivity].
Qed.

Lemma delete_removes_the_file_witness :
  exists e s', delete 10 "missing.txt" demo_connected = (Raise e, s')
               /\ is_IOError e = true.
Proof.
  destruct (delete_removes_the_file 10 demo_connected (Channel 0) "missing.txt" eq_refl)
    as [_ H].
  destruct H as (e & s' & Hrun & Hio & _); [intros n Hn; discriminate Hn|].
  exists e, s'. split; assumption.
Defined.

(** ** [exists] while the session cannot be established *)

(** X. The [try] of [exists] covers the access to [sftp]: when the session
    has to be established and the known-hosts file cannot be read (an
    [IOError]), [exists] answers [False] for every name without asking the
    server; an authentication failure, not being an [IOError], is raised. *)
Theorem exists_hides_connection_io_errors (d : nat) (s : state) (name : string) :
  _sftp (self s) = None ->
  (forall e, unreadable (net s) (hosts_file s) = Some e -> is_IOError e = true ->
     exists s',
       exists_ (S d) name s = (Ok false, s') /\
       log (net s') = log (net s) ++ [EvLoadHostKeys (hosts_file s)] /\
       _sftp (self s') = None) /\
  (forall r,
     unreadable (net s) (hosts_file s) = None ->
     sshd (net s) (host (self s)) (params (self s)) = Some r ->
     is_AuthenticationException (why r) = true ->
     (interactive (self s) && negb (has_key "password" (params (self s))))%bool = false ->
     exists s',
       exists_ (S d) name s = (Raise (Exn AuthenticationException (exn_msg (why r))), s')).
Proof.
  intros Hnone. split.
  - intros e Hload Hio. eexists. split; [|split].
    + unfold exists_. rewrite bind_get. unfold try_except.
      rewrite (bind_raise _ _ _ _ _
                 (sftp_connect_raises (S d) s e _ Hnone (connect_load_fails d s e Hload))).
      rewrite Hio. reflexivity.
    + reflexivity.
    + destruct s as [o w]. exact Hnone.
  - intros r Hload Hsshd Hauth Hgate. eexists.
    unfold exists_. rewrite bind_get. unfold try_except.
    rewrite (bind_raise _ _ _ _ _
               (sftp_connect_raises (S d) s _ _ Hnone
                  (connect_auth_fatal d s r Hload Hsshd Hauth Hgate))).
    reflexivity.
Qed.

Lemma exists_hides_connection_io_errors_witness :
  exists s', exists_ 10 "a.txt" demo_no_known_hosts = (Ok false, s').
Proof.
  destruct (exists_hides_connection_io_errors 9 demo_no_known_hosts "a.txt" eq_refl)
    as [H _].
  destruct (H _ eq_refl eq_refl) as (s' & Hrun & _).
  exists s'. exact Hrun.
Defined.

(** ** Buffered handles *)

(** X. [write] on a handle whose mode has no [w] raises [AttributeError] and
    changes nothing. On a writable handle it replaces the buffer, marks the
    handle dirty, and a [read] that follows returns the bytes just written
    from the buffer, without any request; a second [write] discards what the
    first one wrote. *)
Theorem write_replaces_the_buffer
    (limit : nat) (h : SFTPStorageFile) (content other : list Byte.byte) (s : state) :
  (Py.has_char "w" (_mode h) = false ->
     exists e, write h content s = (Raise e, s) /\ exn_cls e = AttributeError) /\
  (Py.has_char "w" (_mode h) = true ->
     exists h1,
       write h content s = (Ok (tt, h1), s) /\
       _is_dirty h1 = true /\ file h1 = BytesIO content 0 /\
       (exists h2, read limit h1 None s = (Ok (content, h2), s) /\ _is_dirty h2 = true) /\
       (exists h3, write h1 other s = (Ok (tt, h3), s) /\ file h3 = BytesIO other 0)).
Proof.
  split; intros Hm; unfold write; rewrite Hm; simpl.
  - eexists. split; reflexivity.
  - eexists. split; [reflexivity|]. split; [reflexivity|]. split; [reflexivity|].
    split.
    + eexists. unfold read. simpl. split; reflexivity.
    + eexists. unfold write. simpl. rewrite Hm. simpl. split; reflexivity.
Qed.

Lemma write_replaces_the_buffer_witness :
  exists e, write (_open "a.txt" "rb") [Byte.x68] demo = (Raise e, demo)
            /\ exn_cls e = AttributeError.
Proof.
  destruct (write_replaces_the_buffer 10 (_open "a.txt" "rb") [Byte.x68] [] demo)
    as [H _].
  apply H. reflexivity.
Defined.


(** the sample server with a two-byte file [a.txt] under the root *)
Definition demo_with_file : state :=
  send [] (<["/srv/media/a.txt" := Inode (Regular [Byte.x68; Byte.x69]) 420 1000 1000]> demo_fs)
       demo_connected.


(** X. The [size] of a handle is fetched once: the first access asks the
    server for the metadata of the resolved path and caches the size, and
    from then on the cached value is returned in any state, without a
    request, whatever has become of the remote file. When the first access
    fails with a missing path, nothing is cached. *)
Theorem handle_size_is_cached
    (limit : nat) (s : state) (c : SFTPClient) (h : SFTPStorageFile) :
  let path := _remote_path (self s) (_name h) in
  _sftp (self s) = Some c ->
  _size h = None ->
  (forall n, fs (net s) !! path = Some n ->
     exists h1,
       handle_size limit h s
       = (Ok (st_size (attr_of path n), h1), send [ReqStat path] (fs (net s)) s) /\
       _size h1 = Some (st_size (attr_of path n)) /\
       forall t, handle_size limit h1 t = (Ok (st_size (attr_of path n), h1), t)) /\
  (fs (net s) !! path = None ->
     exists e s', handle_size limit h s = (Raise e, s') /\ is_IOError e = true).
Proof.
  intros path Hc Hs. split.
  - intros n Hn. eexists. split; [|split].
    + unfold handle_size. rewrite Hs.
      rewrite (bind_ok _ _ _ _ _ (size_served limit s c (_name h) n Hc Hn)).
      reflexivity.
    + reflexivity.
    + intros t. reflexivity.
  - intros Hn. exists (ENOENT path). eexists. split; [|reflexivity].
    unfold handle_size. rewrite Hs. apply bind_raise.
    unfold size. rewrite bind_get. fold path.
    rewrite (bind_ok _ _ _ _ _ (sftp_cached limit s c Hc)).
    apply bind_raise. apply stat_missing, Hn.
Qed.

Lemma handle_size_is_cached_witness :
  exists h1 s1, handle_size 10 (_open "a.txt" "rb") demo_with_file = (Ok (2%Z, h1), s1)
                /\ forall t, handle_size 10 h1 t = (Ok (2%Z, h1), t).
Proof.
  destruct (handle_size_is_cached 10 demo_with_file (Channel 0) (_open "a.txt" "rb")
              eq_refl eq_refl) as [H _].
  destruct (H _ eq_refl) as (h1 & Hrun & _ & Hc).
  exists h1. eexists. split; [exact Hrun | exact Hc].
Defined.

(** ** The recursion of [_mkdir] *)

(** the [stat]s [_mkdir] sends while it climbs [d] levels from [p] *)
Fixpoint climb (d : nat) (p : string) : list request :=
  match d with
  | O => []
  | S d' => ReqStat (Py.dirname p) :: climb d' (Py.dirname p)
  end.

(** X. [_mkdir] gives up at the recursion limit: when none of the [d]
    nearest ancestors of an absolute path exists, [_mkdir] with [d] levels
    of recursion left raises [RecursionError], having sent one [stat] per
    level and no [mkdir]; the remote file system is unchanged. *)
Theorem mkdir_stops_at_recursion_limit (limit d : nat) :
  forall (s : state) (c : SFTPClient) (p : string),
    _sftp (self s) = Some c ->
    Py.startswith_sep p = true ->
    (forall j, 1 <= j <= d -> fs (net s) !! Nat.iter j Py.dirname p = None) ->
    _mkdir_rec limit d p s
    = (Raise RecursionLimit, send (climb d p) (fs (net s)) s)
    /\ omap mkdir_target (climb d p) = [].
Proof.
  induction d as [|d IH]; intros s c p Hc Habs Hmiss.
  - split; [|reflexivity]. simpl. rewrite send_nil. reflexivity.
  - assert (Hpar : fs (net s) !! Py.dirname p = None) by (apply (Hmiss 1); lia).
    set (s1 := send [ReqStat (Py.dirname p)] (fs (net s)) s).
    destruct (IH s1 c (Py.dirname p) Hc (dirname_absolute p Habs)) as [Hrec Hm].
    { intros j Hj. rewrite <- Nat.iter_succ_r. apply Hmiss. lia. }
    split; [|exact Hm].
    rewrite mkdir_rec_unfold.
    pose proof (exists_served limit s c (Py.dirname p) Hc) as Hex. cbv zeta in Hex.
    assert (Hrp : _remote_path (self s) (Py.dirname p) = Py.dirname p)
      by apply (join_absolute _ _ (dirname_absolute p Habs)).
    rewrite Hrp in Hex. rewrite (bind_ok _ _ _ _ _ Hex).
    rewrite Hpar, bool_decide_false by (intros [? ?]; discriminate).
    cbn [negb when]. rewrite (bind_raise _ _ _ _ _ Hrec).
    unfold s1. rewrite send_send. reflexivity.
Qed.

(** a server on which nothing is found, not even the root *)
Definition demo_empty : state := send [] ∅ demo_connected.

Lemma mkdir_stops_at_recursion_limit_witness :
  _mkdir_rec 3 3 "/a/b" demo_empty
  = (Raise RecursionLimit,
     send [ReqStat "/a"; ReqStat "/"; ReqStat "/"] ∅ demo_empty).
Proof.
  destruct (mkdir_stops_at_recursion_limit 3 3 demo_empty (Channel 0) "/a/b"
              eq_refl eq_refl) as [H _].
  - intros j Hj. apply lookup_empty.
  - exact H.
Defined.

(** ** Resolving paths under the root *)

Lemma upto_sep_suffix l : exists pre, l = pre ++ Py.upto_sep l.
Proof.
  induction l as [|c l [pre IH]]; simpl.
  - exists []. reflexivity.
  - destruct (Py.is_sep c).
    + exists []. reflexivity.
    + exists (c :: pre). simpl. rewrite <- IH. reflexivity.
Qed.

Lemma strip_seps_suffix l : exists pre, l = pre ++ Py.strip_seps l.
Proof.
  induction l as [|c l [pre IH]]; simpl.
  - exists []. reflexivity.
  - destruct (Py.is_sep c).
    + exists (c :: pre). simpl. rewrite <- IH. reflexivity.
    + exists []. reflexivity.
Qed.

(** [dirname p] is an initial part of [p] *)
Lemma dirname_prefix p :
  exists rest, Py.chars p = Py.chars (Py.dirname p) ++ rest.
Proof.
  unfold Py.dirname.
  destruct (upto_sep_suffix (rev (Py.chars p))) as [pre Hpre].
  destruct (Py.upto_sep (rev (Py.chars p))) as [|x xs] eqn:E.
  - exists (Py.chars p). reflexivity.
  - assert (Hp : Py.chars p = rev (x :: xs) ++ rev pre).
    { rewrite <- rev_app_distr, <- Hpre, rev_involutive. reflexivity. }
    destruct (forallb Py.is_sep (x :: xs)).
    + exists (rev pre). rewrite chars_str. exact Hp.
    + destruct (strip_seps_suffix (x :: xs)) as [pre' Hpre'].
      exists (rev pre' ++ rev pre). rewrite chars_str, Hp, Hpre' at 1.
      rewrite rev_app_distr, <- app_assoc. reflexivity.
Qed.

Lemma dirname_relative p :
  Py.startswith_sep p = false -> Py.startswith_sep (Py.dirname p) = false.
Proof.
  unfold Py.startswith_sep. destruct (dirname_prefix p) as [rest H]. rewrite H.
  destruct (Py.chars (Py.dirname p)); [reflexivity | simpl; auto].
Qed.

(** X. The existence checks of [_save] and [_mkdir] resolve the directory
    of a resolved path once more. Under an absolute root this gives the
    directory itself. Under a relative root that ends in a separator, with a
    relative name, the root is prepended a second time: the check looks at
    another path than the one that is created. *)
Theorem existence_check_needs_absolute_root (o : SFTPStorage) (name : string) :
  let dir := Py.dirname (_remote_path o name) in
  (Py.startswith_sep (root_path o) = true -> _remote_path o dir = dir) /\
  (Py.startswith_sep (root_path o) = false ->
   Py.endswith_sep (root_path o) = true ->
   Py.startswith_sep name = false ->
   _remote_path o name = (root_path o ++ name)%string /\
   _remote_path o dir = (root_path o ++ Py.dirname (root_path o ++ name))%string).
Proof.
  intros dir. split.
  - intros Hroot. apply join_absolute, dirname_absolute, remote_path_absolute, Hroot.
  - intros Hrel Hend Hname.
    assert (Hp : _remote_path o name = (root_path o ++ name)%string).
    { unfold _remote_path, _join, Py.join. rewrite Hname, Hend, orb_true_r. reflexivity. }
    split; [exact Hp|].
    assert (Hpr : Py.startswith_sep (root_path o ++ name) = false).
    { unfold Py.startswith_sep, Py.chars in *.
      destruct (root_path o) as [|c r]; [discriminate Hend|]. exact Hrel. }
    unfold dir. rewrite Hp. unfold _remote_path, _join, Py.join.
    rewrite (dirname_relative _ Hpr), Hend, orb_true_r. reflexivity.
Qed.

Lemma existence_check_needs_absolute_root_witness :
  _remote_path (Storage "h" ∅ false None None None None None "media/" None None None)
               (Py.dirname "media/a/b.txt")
  = "media/media/a"%string.
Proof.
  destruct (existence_check_needs_absolute_root
              (Storage "h" ∅ false None None None None None "media/" None None None)
              "a/b.txt") as [_ H].
  destruct (H eq_refl eq_refl eq_refl) as [_ H2]. exact H2.
Defined.

(** ** Operations that only look *)

Lemma quiet_listdir limit path : keeps quiet (listdir limit path).
Proof.
  pose proof (fun c p => quiet_call c (ReqListdir p) eq_refl).
  unfold listdir, listdir_attr. quiet_auto.
Qed.

Lemma quiet_exists limit name : keeps quiet (exists_ limit name).
Proof. unfold exists_. quiet_auto. Qed.

Lemma quiet_read_remote limit name : keeps quiet (_read limit name).
Proof.
  pose proof (fun c p => quiet_call c (ReqOpenRead p) eq_refl).
  unfold _read. quiet_auto.
Qed.

Lemma quiet_read limit h num_bytes : keeps quiet (read limit h num_bytes).
Proof.
  pose proof (quiet_read_remote limit (_name h)).
  unfold read, stream_read. quiet_auto.
Qed.

(** X. Looking never changes the server: whatever the state, and also when
    the session has to be established on the way, [sftp], [exists], [size],
    [listdir], the [read] and the [size] of a handle leave the remote file
    system as it is and send none of [mkdir], [chmod], [chown], [open] for
    writing, [write] and [remove]. *)
Theorem reading_operations_change_nothing (limit : nat) (s : state) :
  (forall r s', sftp limit s = (r, s') -> quiet s s') /\
  (forall name r s', exists_ limit name s = (r, s') -> quiet s s') /\
  (forall name r s', size limit name s = (r, s') -> quiet s s') /\
  (forall path r s', listdir limit path s = (r, s') -> quiet s s') /\
  (forall h n r s', read limit h n s = (r, s') -> quiet s s') /\
  (forall h r s', handle_size limit h s = (r, s') -> quiet s s').
Proof.
  split; [intros r s'; apply quiet_sftp|].
  split; [intros name r s'; apply quiet_exists|].
  split; [intros name r s'; apply quiet_size|].
  split; [intros path r s'; apply quiet_listdir|].
  split; [intros h n r s'; apply quiet_read|].
  intros h r s'. apply quiet_handle_size.
Qed.

(** ** [listdir] on what is not a directory *)

(** X. [listdir] of a path that is missing, or that is a regular file,
    raises an [IOError] after one request; no lists are returned and the
    remote file system is unchanged. *)
Theorem listdir_needs_a_directory
    (limit : nat) (s : state) (c : SFTPClient) (path : string) :
  let p := _remote_path (self s) path in
  _sftp (self s) = Some c ->
  (forall n, fs (net s) !! p = Some n -> is_dir n = false) ->
  exists e,
    listdir limit path s = (Raise e, send [ReqListdir p] (fs (net s)) s)
    /\ is_IOError e = true.
Proof.
  intros p Hc Hn.
  destruct (call_refused c (ReqListdir p) s) as (e & He & Hio).
  { simpl. destruct (fs (net s) !! p) as [n|] eqn:E; [|reflexivity].
    rewrite (Hn n eq_refl). reflexivity. }
  exists e. split; [|exact Hio].
  unfold listdir. rewrite bind_get. fold p.
  rewrite (bind_ok _ _ _ _ _ (sftp_cached limit s c Hc)).
  apply bind_raise. unfold listdir_attr. apply bind_raise. exact He.
Qed.

Lemma listdir_needs_a_directory_witness :
  exists e s', listdir 10 "a.txt" demo_with_file = (Raise e, s') /\ is_IOError e = true.
Proof.
  destruct (listdir_needs_a_directory 10 demo_with_file (Channel 0) "a.txt" eq_refl)
    as (e & H & Hio).
  - intros n Hn. vm_compute in Hn. inversion Hn. reflexivity.
  - exists e. eexists. split; [exact H | exact Hio].
Defined.

(** ** File types *)

Lemma land_below_type_bits perm :
  (0 <= perm < 4096)%Z -> Z.land perm 61440 = 0%Z.
Proof.
  intros Hperm. apply Z.bits_inj'. intros n Hn.
  rewrite Z.land_spec, Z.bits_0.
  destruct (Z.lt_ge_cases n 12) as [Hlt|Hge].
  - change 61440%Z with (Z.shiftl 15 12).
    rewrite (Z.shiftl_spec_low 15 12 n Hlt). apply andb_false_r.
  - rewrite <- (Z.mod_small perm (2 ^ 12)) by (change (2 ^ 12)%Z with 4096%Z; lia).
    rewrite Z.mod_pow2_bits_high by lia. reflexivity.
Qed.

(** X. [_isdir_attr] looks at the file type alone: an entry is a directory
    exactly when the type bits of its mode are [S_IFDIR], whatever its
    permission bits; a regular file, a symbolic link and an entry without a
    mode are not. *)
Theorem isdir_attr_reads_type_bits (item : SFTPAttributes) (perm : Z) :
  (0 <= perm < 4096)%Z ->
  (st_mode item = Some (Z.lor 16384 perm) -> _isdir_attr item = true) /\
  (st_mode item = Some (Z.lor 32768 perm) -> _isdir_attr item = false) /\
  (st_mode item = Some (Z.lor 40960 perm) -> _isdir_attr item = false) /\
  (st_mode item = None -> _isdir_attr item = false).
Proof.
  intros Hperm. pose proof (land_below_type_bits perm Hperm) as H0.
  unfold _isdir_attr, S_IFMT, S_IFDIR.
  repeat split; intros ->; try reflexivity;
    rewrite Z.land_lor_distr_l, H0, Z.lor_0_r; reflexivity.
Qed.

Lemma isdir_attr_reads_type_bits_witness :
  _isdir_attr (Attr "sub" (Some (Z.lor 16384 493)) 0 0 0) = true.
Proof.
  destruct (isdir_attr_reads_type_bits (Attr "sub" (Some (Z.lor 16384 493)) 0 0 0) 493
              ltac:(lia)) as [H _].
  apply H. reflexivity.
Defined.

(** ** What the handlers of [_connect] let through *)

(** X. The handlers around [connect] catch [Exception] only: an error that
    is not one, such as a keyboard interrupt, leaves [_connect] and the
    [sftp] property as it is, nothing is printed and no session is cached. *)
Theorem base_exceptions_leave_connect (d : nat) (s : state) (r : refusal) :
  _sftp (self s) = None ->
  unreadable (net s) (hosts_file s) = None ->
  sshd (net s) (host (self s)) (params (self s)) = Some r ->
  is_Exception (why r) = false ->
  _connect (S d) s = (Raise (why r), after_refusal s r) /\
  sftp (S d) s = (Raise (why r), after_refusal s r) /\
  stdout (net (after_refusal s r)) = stdout (net s) /\
  _sftp (self (after_refusal s r)) = None.
Proof.
  intros Hnone Hload Hsshd Hexc.
  assert (Hauth : is_AuthenticationException (why r) = false).
  { unfold is_Exception, is_AuthenticationException in *.
    destruct (exn_cls (why r)); try discriminate; reflexivity. }
  assert (Hrun : _connect_rec (S d) s = (Raise (why r), after_refusal s r)).
  { revert Hload Hsshd. unfold hosts_file, after_refusal, refused_client, hosts_file.
    destruct s as [o w]. simpl. intros Hload Hsshd.
    unfold load_host_keys, set_missing_host_key_policy, ssh_connect, update_client. run.
    destruct (known_host_file o) as [f|]; run; rewrite Hload; simpl;
      rewrite Hsshd; simpl; rewrite Hauth, Hexc; simpl; reflexivity. }
  split; [exact Hrun|]. split; [apply sftp_connect_raises; assumption|].
  split; [reflexivity|]. destruct s as [o w]. exact Hnone.
Qed.

(** a login interrupted at the keyboard *)
Definition demo_interrupted : state :=
  State demo_storage
        (with_sshd (fun _ _ => Some (Refusal (Exn KeyboardInterrupt "") false)) demo_world).

Lemma base_exceptions_leave_connect_witness :
  (sftp 10 demo_interrupted).1 = Raise (Exn KeyboardInterrupt "").
Proof.
  destruct (base_exceptions_leave_connect 9 demo_interrupted
              (Refusal (Exn KeyboardInterrupt "") false) eq_refl eq_refl eq_refl eq_refl)
    as (_ & H & _).
  rewrite H. reflexivity.
Defined.

Lemma sftp_is_lazy_and_idempotent_witness :
  sftp 10 demo_connected = (Ok (Channel 0), demo_connected).
Proof.
  destruct (sftp_is_lazy_and_idempotent 10 demo_connected) as (_ & H & _).
  apply H. reflexivity.
Defined.

Lemma reading_operations_change_nothing_witness :
  quiet demo (exists_ 10 "a.txt" demo).2.
Proof.
  destruct (reading_operations_change_nothing 10 demo) as (_ & H & _).
  apply (H "a.txt"%string (exists_ 10 "a.txt" demo).1). apply surjective_pairing.
Defined.
